(** * rbtempo: the Rhythmbox tempo / pitch / speed plugin (rbtempo.py)

    A shallow embedding of [rbtempo.py] and the properties of it that the
    design document states.

    Modelling conventions.
    - Python floats (adjustment values, the element's properties) are the
      real numbers [R]; [math.pow(2.0, x)] is [Rpower 2 x].
    - The objects the plugin shares with its host live in an explicit
      store: GStreamer elements are identifiers into [elements], and both
      the plugin's handle and the player's filter chain hold identifiers,
      so a property written through the handle is the property the
      pipeline sees.  Widgets carry an identifier as well; the host window
      is a tree of them.
    - Every method is a computation in [M], a state monad with Python
      exceptions.  The host can fail in the two ways the source provides
      for: [Gst.ElementFactory.make] may return [None], and the calls that
      [do_activate] and [do_deactivate] wrap in [try] may raise.
    - [GLib.warning] is not an attribute of the [GLib] module that
      PyGObject provides ([g_warning] is a C macro, so it is neither in the
      introspection data nor in PyGObject's overrides): every call of it
      raises [AttributeError] and logs nothing.
    - A Python callable connected to a GObject signal that raises does not
      raise into the emitter: PyGObject prints the traceback and the
      emission goes on.
    - Everything a method does to the host (calls into GStreamer, the
      player, the toolbar) is appended to [trace], together with one
      [EvPropertyChanged] per run of the value-changed handler and one
      [EvTraceback] per exception that a handler run ends with. *)

From Stdlib Require Import Reals Lra String List.
From stdpp Require Import gmap.
Import ListNotations.

(** ** Widgets *)

(** A Python value as [find_widget_by_name] sees it: either something that
    is not a [Gtk.Widget] ([None] included), or a widget.  [buildable_name]
    is [Some n] when the widget is a [Gtk.Buildable] whose name is the
    string [n]; [children] is [Some l] when it is a [Gtk.Container] whose
    [get_children()] is [l]. *)
#[local] Unset Elimination Schemes.
Inductive pyobj : Type :=
| PyOther : pyobj
| GtkWidget (wid : nat) (buildable_name : option string)
            (children : option (list pyobj)) : pyobj.
#[local] Set Elimination Schemes.

Definition name_matches (bn : option string) (name : string) : bool :=
  match bn with
  | Some n => String.eqb n name
  | None => false
  end.

(** rbtempo.py, [find_widget_by_name]: lines 20-32. *)
Fixpoint find_widget_by_name (root : pyobj) (name : string) : option pyobj :=
  match root with
  | PyOther => None
  | GtkWidget _ bn kids =>
      if name_matches bn name then Some root
      else
        match kids with
        | Some cs =>
            (fix each_child (l : list pyobj) : option pyobj :=
               match l with
               | [] => None
               | child :: rest =>
                   match find_widget_by_name child name with
                   | Some ans => Some ans
                   | None => each_child rest
                   end
               end) cs
        | None => None
        end
  end.

(** The for-loop of [find_widget_by_name] on its own. *)
Definition find_in_children (cs : list pyobj) (name : string) : option pyobj :=
  (fix each_child (l : list pyobj) : option pyobj :=
     match l with
     | [] => None
     | child :: rest =>
         match find_widget_by_name child name with
         | Some ans => Some ans
         | None => each_child rest
         end
     end) cs.

(** The specification's side of the search: the widgets of a tree in
    depth-first pre-order (a node before its children, children left to
    right), and the test "this widget bears the name". *)
Fixpoint preorder (root : pyobj) : list pyobj :=
  match root with
  | PyOther => []
  | GtkWidget _ _ kids =>
      root ::
      match kids with
      | Some cs =>
          (fix over (l : list pyobj) : list pyobj :=
             match l with
             | [] => []
             | child :: rest => preorder child ++ over rest
             end) cs
      | None => []
      end
  end.

Fixpoint preorder_list (cs : list pyobj) : list pyobj :=
  match cs with
  | [] => []
  | child :: rest => preorder child ++ preorder_list rest
  end.

Definition bears_name (name : string) (w : pyobj) : bool :=
  match w with
  | PyOther => false
  | GtkWidget _ bn _ => name_matches bn name
  end.

Definition is_widget (o : pyobj) : bool :=
  match o with
  | PyOther => false
  | GtkWidget _ _ _ => true
  end.

(** The first widget, in that order, that bears the name. *)
Definition first_in_preorder (root : pyobj) (name : string) : option pyobj :=
  List.find (bears_name name) (preorder root).

(** ** Numbers, GStreamer elements, adjustments *)

(** The three properties of the GStreamer [pitch] element that the plugin
    writes. *)
Record ElemProps : Type := {
  tempo : R;
  pitch : R;
  rate : R;
}.

(** A fresh [pitch] element: GStreamer's defaults for the three
    properties are all 1.0 (no change to the audio). *)
Definition gst_pitch_defaults : ElemProps :=
  {| tempo := 1; pitch := 1; rate := 1 |}.

(** The neutral values: tempo, pitch and rate all 1.0. *)
Definition neutral : ElemProps := {| tempo := 1; pitch := 1; rate := 1 |}.

Inductive adj_id : Type := TempoAdj | PitchAdj | SpeedAdj.

#[global] Instance adj_id_eq_dec : EqDecision adj_id.
Proof. solve_decision. Defined.

(** What can be connected to an adjustment's value-changed signal; the
    plugin has one such method. *)
Inductive callback : Type := CbPropertyChanged.

(** A [Gtk.Adjustment] with the handlers connected to its value-changed
    signal.  [page_size] is not passed by [create_adj] and is the toolkit's
    default, 0. *)
Record Adjustment : Type := {
  value : R;
  lower : R;
  upper : R;
  step_increment : R;
  page_increment : R;
  page_size : R;
  handlers : list callback;
}.

Definition with_value (v : R) (a : Adjustment) : Adjustment :=
  {| value := v; lower := lower a; upper := upper a;
     step_increment := step_increment a; page_increment := page_increment a;
     page_size := page_size a; handlers := handlers a |}.

(** [Gtk.Adjustment.set_value] clamps: first down to [upper - page_size],
    then up to [lower]. *)
Definition clamp_value (a : Adjustment) (v : R) : R :=
  Rmax (lower a) (Rmin v (upper a - page_size a)).

(** The formulas of [property_changed], lines 62-64. *)
Definition tempo_of (v : R) : R := (v * 0.01 + 1.0)%R.
Definition pitch_of (v : R) : R := Rpower 2.0 (v / 12.0).
Definition rate_of (v : R) : R := (v * 0.01 + 1.0)%R.

(** ** Exceptions, host, plugin state *)

(** What an attribute lookup is made on: a module or an object. *)
Inductive holder : Type :=
| PyModule (name : string)
| PyObject (o : pyobj).

(** An instance of Python's [Exception]: the [AttributeError] of a failed
    attribute lookup (on what, and of which attribute), or an exception
    raised inside the host's libraries. *)
Inductive exn : Type :=
| AttributeError (on : holder) (attribute : string)
| Exception (message : string).

(** The argument of a [GLib.warning] call: a string literal, or an
    f-string that formats the caught exception after a fixed text. *)
Inductive log_text : Type :=
| Literal (text : string)
| FormatExn (text : string) (e : exn).

Inductive result (A : Type) : Type :=
| Returns (a : A)
| Raises (e : exn).
Arguments Returns {A} a.
Arguments Raises {A} e.

(** The toolkit and shell calls made inside the [try] blocks of
    [do_activate] and [do_deactivate]. *)
Inductive ui_call : Type :=
| ShellWindow        (* self.get_shell().props.window *)
| GtkConstruct       (* any Gtk constructor of create_toolbox *)
| ToolbarInsert      (* toolbar.insert(...) *)
| WidgetGetParent    (* self.toolbox.get_parent() *)
| ToolbarRemove.     (* toolbar.remove(...) *)

(** What the plugin does to its host, in order, with the runs of the
    value-changed handler and the tracebacks PyGObject prints for the runs
    that raise. *)
Inductive event : Type :=
| EvGstInit
| EvElementFactoryMake (made : option nat)
| EvPlayerAddFilter (e : nat)
| EvPlayerRemoveFilter (e : nat)
| EvTraceback (e : exn)
| EvSetTempo (e : nat) (x : R)
| EvSetPitch (e : nat) (x : R)
| EvSetRate (e : nat) (x : R)
| EvToolbarInsert (toolbar item : pyobj) (pos : nat)
| EvToolbarRemove (toolbar item : pyobj)
| EvPropertyChanged (adj : adj_id).

(** The host application as the plugin reaches it. *)
Record Host : Type := {
  gst_has_pitch : bool;              (* can Gst.ElementFactory make "pitch"? *)
  next_element : nat;                (* identifier of the next element made *)
  elements : gmap nat ElemProps;     (* the live GStreamer elements *)
  filters : list nat;                (* the player's filter chain *)
  window : pyobj;                    (* shell.props.window *)
  next_widget : nat;                 (* identifier of the next widget made *)
  raises : ui_call -> option exn;    (* which guarded calls raise, and what *)
}.

(** The attributes of the plugin instance that its methods read. *)
Record Plugin : Type := {
  pitch_element : option nat;
  toolbox : option pyobj;
  tempo_adj : Adjustment;
  pitch_adj : Adjustment;
  speed_adj : Adjustment;
}.

Record State : Type := {
  self : Plugin;
  host : Host;
  trace : list event;
}.

Definition with_pitch_element (h : option nat) (p : Plugin) : Plugin :=
  {| pitch_element := h; toolbox := toolbox p; tempo_adj := tempo_adj p;
     pitch_adj := pitch_adj p; speed_adj := speed_adj p |}.

Definition with_toolbox (t : option pyobj) (p : Plugin) : Plugin :=
  {| pitch_element := pitch_element p; toolbox := t; tempo_adj := tempo_adj p;
     pitch_adj := pitch_adj p; speed_adj := speed_adj p |}.

Definition adj_of (k : adj_id) (p : Plugin) : Adjustment :=
  match k with
  | TempoAdj => tempo_adj p
  | PitchAdj => pitch_adj p
  | SpeedAdj => speed_adj p
  end.

Definition with_adj (k : adj_id) (a : Adjustment) (p : Plugin) : Plugin :=
  match k with
  | TempoAdj =>
      {| pitch_element := pitch_element p; toolbox := toolbox p;
         tempo_adj := a; pitch_adj := pitch_adj p; speed_adj := speed_adj p |}
  | PitchAdj =>
      {| pitch_element := pitch_element p; toolbox := toolbox p;
         tempo_adj := tempo_adj p; pitch_adj := a; speed_adj := speed_adj p |}
  | SpeedAdj =>
      {| pitch_element := pitch_element p; toolbox := toolbox p;
         tempo_adj := tempo_adj p; pitch_adj := pitch_adj p; speed_adj := a |}
  end.

Definition with_elements (m : gmap nat ElemProps) (h : Host) : Host :=
  {| gst_has_pitch := gst_has_pitch h; next_element := next_element h;
     elements := m; filters := filters h; window := window h;
     next_widget := next_widget h; raises := raises h |}.

Definition with_next_element (n : nat) (h : Host) : Host :=
  {| gst_has_pitch := gst_has_pitch h; next_element := n;
     elements := elements h; filters := filters h; window := window h;
     next_widget := next_widget h; raises := raises h |}.

Definition with_filters (l : list nat) (h : Host) : Host :=
  {| gst_has_pitch := gst_has_pitch h; next_element := next_element h;
     elements := elements h; filters := l; window := window h;
     next_widget := next_widget h; raises := raises h |}.

Definition with_window (w : pyobj) (h : Host) : Host :=
  {| gst_has_pitch := gst_has_pitch h; next_element := next_element h;
     elements := elements h; filters := filters h; window := w;
     next_widget := next_widget h; raises := raises h |}.

Definition with_next_widget (n : nat) (h : Host) : Host :=
  {| gst_has_pitch := gst_has_pitch h; next_element := next_element h;
     elements := elements h; filters := filters h; window := window h;
     next_widget := n; raises := raises h |}.

(** ** The method monad *)

Definition M (A : Type) : Type := State -> result A * State.

Definition ret {A} (a : A) : M A := fun s => (Returns a, s).

Definition bind {A B} (m : M A) (k : A -> M B) : M B :=
  fun s =>
    match m s with
    | (Returns a, s') => k a s'
    | (Raises e, s') => (Raises e, s')
    end.

Definition raise {A} (e : exn) : M A := fun s => (Raises e, s).

(** [try: body except Exception as e: handler e]. *)
Definition try_except (body : M unit) (handler : exn -> M unit) : M unit :=
  fun s =>
    match body s with
    | (Returns a, s') => (Returns a, s')
    | (Raises e, s') => handler e s'
    end.

Declare Scope method_scope.
Delimit Scope method_scope with method.
Notation "x <- m ;; k" := (bind m (fun x => k))
  (at level 100, m at next level, right associativity) : method_scope.
Notation "m ;; k" := (bind m (fun _ => k))
  (at level 100, right associativity) : method_scope.
Local Open Scope method_scope.

Definition get_self : M Plugin := fun s => (Returns (self s), s).
Definition get_host : M Host := fun s => (Returns (host s), s).

Definition modify_self (f : Plugin -> Plugin) : M unit :=
  fun s => (Returns tt, {| self := f (self s); host := host s; trace := trace s |}).

Definition modify_host (f : Host -> Host) : M unit :=
  fun s => (Returns tt, {| self := self s; host := f (host s); trace := trace s |}).

Definition emit (ev : event) : M unit :=
  fun s => (Returns tt, {| self := self s; host := host s; trace := trace s ++ [ev] |}).

(** The state a method leaves, and how it ends. *)
Definition exec {A} (m : M A) (s : State) : State := snd (m s).
Definition outcome {A} (m : M A) (s : State) : result A := fst (m s).

(** ** The host's interface *)

Definition Gst_init : M unit := emit EvGstInit.

(** [Gst.ElementFactory.make("pitch", None)]: a new element with default
    properties, or [None] when the factory is missing. *)
Definition Gst_ElementFactory_make : M (option nat) :=
  h <- get_host ;;
  if gst_has_pitch h then
    let e := next_element h in
    modify_host (fun h => with_next_element (S e)
                            (with_elements (<[e := gst_pitch_defaults]> (elements h)) h)) ;;
    emit (EvElementFactoryMake (Some e)) ;;
    ret (Some e)
  else
    emit (EvElementFactoryMake None) ;;
    ret None.

(** [player.add_filter(element)] and [player.remove_filter(element)]. *)
Definition player_add_filter (e : nat) : M unit :=
  modify_host (fun h => with_filters (filters h ++ [e]) h) ;;
  emit (EvPlayerAddFilter e).

Definition player_remove_filter (e : nat) : M unit :=
  modify_host (fun h => with_filters (List.remove Nat.eq_dec e (filters h)) h) ;;
  emit (EvPlayerRemoveFilter e).

(** The [AttributeError] that evaluating [GLib.warning] raises. *)
Definition no_warning_attribute : exn :=
  AttributeError (PyModule "gi.repository.GLib") "warning".

(** [GLib.warning(msg)].  The module has no attribute [warning]: the
    lookup raises before the argument is evaluated, and nothing is logged. *)
Definition GLib_warning (msg : log_text) : M unit :=
  raise no_warning_attribute.

(** [element.props.tempo = x] and its two siblings. *)
Definition set_tempo (x : R) (p : ElemProps) : ElemProps :=
  {| tempo := x; pitch := pitch p; rate := rate p |}.
Definition set_pitch (x : R) (p : ElemProps) : ElemProps :=
  {| tempo := tempo p; pitch := x; rate := rate p |}.
Definition set_rate (x : R) (p : ElemProps) : ElemProps :=
  {| tempo := tempo p; pitch := pitch p; rate := x |}.

Definition props_set_tempo (e : nat) (x : R) : M unit :=
  modify_host (fun h => with_elements (alter (set_tempo x) e (elements h)) h) ;;
  emit (EvSetTempo e x).
Definition props_set_pitch (e : nat) (x : R) : M unit :=
  modify_host (fun h => with_elements (alter (set_pitch x) e (elements h)) h) ;;
  emit (EvSetPitch e x).
Definition props_set_rate (e : nat) (x : R) : M unit :=
  modify_host (fun h => with_elements (alter (set_rate x) e (elements h)) h) ;;
  emit (EvSetRate e x).

(** A guarded host call: raises when the host says so. *)
Definition guarded (c : ui_call) : M unit :=
  h <- get_host ;;
  match raises h c with
  | Some e => raise e
  | None => ret tt
  end.

Definition adj_get_value (k : adj_id) : M R :=
  p <- get_self ;; ret (value (adj_of k p)).

(** ** The plugin's methods *)

(** The texts passed to [GLib.warning]. *)
Definition no_pitch_warning : log_text :=
  Literal "RBTempoPlugin: Could not create GStreamer pitch element. Is gst-plugins-good installed?".

Definition toolbar_missing_warning : log_text :=
  Literal "RBTempoPlugin: Could not find Rhythmbox main toolbar.".

Definition toolbar_gone_warning : log_text :=
  Literal "RBTempoPlugin: Could not find main toolbar during deactivation.".

Definition activate_failed_warning (e : exn) : log_text :=
  FormatExn "RBTempoPlugin: Failed to activate UI: " e.

Definition deactivate_failed_warning (e : exn) : log_text :=
  FormatExn "RBTempoPlugin: Failed to deactivate UI: " e.

Definition set_pitch_element (h : option nat) : M unit :=
  modify_self (with_pitch_element h).
Definition set_toolbox (t : option pyobj) : M unit :=
  modify_self (with_toolbox t).

(** [add_filter], lines 177-184. *)
Definition add_filter : M unit :=
  p <- get_self ;;
  match pitch_element p with
  | None =>
      made <- Gst_ElementFactory_make ;;
      set_pitch_element made ;;
      match made with
      | Some e => player_add_filter e
      | None => GLib_warning no_pitch_warning
      end
  | Some _ => ret tt
  end.

(** [remove_filter], lines 186-190. *)
Definition remove_filter : M unit :=
  p <- get_self ;;
  match pitch_element p with
  | Some e =>
      player_remove_filter e ;;
      set_pitch_element None
  | None => ret tt
  end.

(** [property_changed], lines 53-64.  The event at its head records the
    run; the method does not use its [adj] argument. *)
Definition property_changed (adj : adj_id) : M unit :=
  emit (EvPropertyChanged adj) ;;
  add_filter ;;
  p <- get_self ;;
  match pitch_element p with
  | Some e =>
      t <- adj_get_value TempoAdj ;;
      props_set_tempo e (tempo_of t) ;;
      q <- adj_get_value PitchAdj ;;
      props_set_pitch e (pitch_of q) ;;
      r <- adj_get_value SpeedAdj ;;
      props_set_rate e (rate_of r)
  | None => ret tt
  end.

(** One connected handler called by the signal emission.  An exception
    the Python callable raises is printed, not passed on to the emitter. *)
Definition run_callback (adj : adj_id) (cb : callback) : M unit :=
  match cb with
  | CbPropertyChanged =>
      try_except (property_changed adj) (fun e => emit (EvTraceback e))
  end.

(** Emission of value-changed: the connected handlers, in order. *)
Fixpoint emit_value_changed (adj : adj_id) (hs : list callback) : M unit :=
  match hs with
  | [] => ret tt
  | cb :: rest => run_callback adj cb ;; emit_value_changed adj rest
  end.

(** [Gtk.Adjustment.set_value], as the toolkit implements it: the value
    is clamped, and value-changed is emitted, running the handlers that
    [create_adj] connected (line 70), only when the stored value changes. *)
Definition adj_set_value (k : adj_id) (v : R) : M unit :=
  p <- get_self ;;
  let a := adj_of k p in
  let v' := clamp_value a v in
  if Req_dec_T v' (value a) then ret tt
  else
    modify_self (with_adj k (with_value v' a)) ;;
    emit_value_changed k (handlers a).

(** [reset], lines 88-98. *)
Definition reset : M unit :=
  adj_set_value TempoAdj 0 ;;
  adj_set_value PitchAdj 0 ;;
  adj_set_value SpeedAdj 0.

(** ** Building and attaching the toolbox *)

(** [get_toolbar], lines 49-51. *)
Definition get_toolbar : M (option pyobj) :=
  guarded ShellWindow ;;
  h <- get_host ;;
  ret (find_widget_by_name (window h) "main-toolbar").

(** The adjustment [create_adj] returns: the arguments it passes to
    [Gtk.Adjustment], the default page size, and [property_changed]
    connected to value-changed. *)
Definition adjustment_at (v lo up step page : R) : Adjustment :=
  {| value := v; lower := lo; upper := up; step_increment := step;
     page_increment := page; page_size := 0; handlers := [CbPropertyChanged] |}.

(** [create_adj], lines 66-71. *)
Definition create_adj (v lo up step page : R) : M Adjustment :=
  guarded GtkConstruct ;;
  ret (adjustment_at v lo up step page).

(** A Gtk constructor: a new widget, not built by a [Gtk.Builder] and so
    without a buildable name. *)
Definition gtk_new (kids : option (list pyobj)) : M pyobj :=
  guarded GtkConstruct ;;
  h <- get_host ;;
  let w := next_widget h in
  modify_host (with_next_widget (S w)) ;;
  ret (GtkWidget w None kids).

(** [box.pack_start(child, ...)], [stack.add_named(child, ...)] and
    [item.add(child)] on a container that is not yet attached anywhere:
    the child is appended. *)
Definition pack (box child : pyobj) : pyobj :=
  match box with
  | GtkWidget w bn (Some cs) => GtkWidget w bn (Some (cs ++ [child]))
  | _ => box
  end.

(** [create_slider_widget], lines 73-86: a box with a scale and a spin
    button, both bound to the adjustment. *)
Definition create_slider_widget (adj : adj_id) (spin_width_chars : nat) : M pyobj :=
  box <- gtk_new (Some []) ;;
  scale <- gtk_new None ;;
  spin <- gtk_new None ;;
  ret (pack (pack box scale) spin).

(** A [Gtk.Button]: a container around its label or icon. *)
Definition gtk_button : M pyobj :=
  face <- gtk_new None ;;
  gtk_new (Some [face]).

(** [create_toolbox], lines 105-175.  Of the attributes it sets, the
    three adjustments are the ones the methods below read; the widgets are
    built in the order of the source and packed into the tool item it
    returns. *)
Definition create_toolbox : M pyobj :=
  ta <- create_adj 0 (-50) 200 5 10 ;;
  modify_self (with_adj TempoAdj ta) ;;
  pa <- create_adj 0 (-12) 12 1 3 ;;
  modify_self (with_adj PitchAdj pa) ;;
  sa <- create_adj 0 (-50) 200 5 10 ;;
  modify_self (with_adj SpeedAdj sa) ;;
  main_vbox <- gtk_new (Some []) ;;
  button_hbox <- gtk_new (Some []) ;;
  tempo_button <- gtk_button ;;
  pitch_button <- gtk_button ;;
  speed_button <- gtk_button ;;
  let button_hbox := pack (pack (pack button_hbox tempo_button) pitch_button) speed_button in
  reset_button <- gtk_button ;;
  let button_hbox := pack button_hbox reset_button in
  dropdown_container <- gtk_new (Some []) ;;
  tempo_slider_box <- create_slider_widget TempoAdj 4 ;;
  let dropdown_container := pack dropdown_container tempo_slider_box in
  pitch_slider_box <- create_slider_widget PitchAdj 3 ;;
  let dropdown_container := pack dropdown_container pitch_slider_box in
  speed_slider_box <- create_slider_widget SpeedAdj 4 ;;
  let dropdown_container := pack dropdown_container speed_slider_box in
  let main_vbox := pack (pack main_vbox button_hbox) dropdown_container in
  item <- gtk_new (Some []) ;;
  ret (pack item main_vbox).

(** Is [o] the widget [item]?  Widgets are compared by identity. *)
Definition is_item (item o : pyobj) : bool :=
  match item, o with
  | GtkWidget i _ _, GtkWidget w _ _ => Nat.eqb w i
  | _, _ => false
  end.

(** The children of the container [t] of a tree replaced by [f] of them. *)
Fixpoint map_container (t : nat) (f : list pyobj -> list pyobj) (o : pyobj) : pyobj :=
  match o with
  | PyOther => PyOther
  | GtkWidget w bn None => GtkWidget w bn None
  | GtkWidget w bn (Some cs) =>
      let cs' := List.map (map_container t f) cs in
      GtkWidget w bn (Some (if Nat.eqb w t then f cs' else cs'))
  end.

(** The container in the tree that has [item] among its children. *)
Fixpoint parent_in (item o : pyobj) : option pyobj :=
  match o with
  | GtkWidget _ _ (Some cs) =>
      if List.existsb (is_item item) cs then Some o
      else
        (fix each_child (l : list pyobj) : option pyobj :=
           match l with
           | [] => None
           | child :: rest =>
               match parent_in item child with
               | Some ans => Some ans
               | None => each_child rest
               end
           end) cs
  | _ => None
  end.

(** A toolbar inserts at position [pos], or at the end when it has fewer
    items. *)
Definition insert_at (pos : nat) (item : pyobj) (cs : list pyobj) : list pyobj :=
  List.firstn pos cs ++ item :: List.skipn pos cs.

(** [toolbar.insert(item, pos)] on the host's window.  Only a container
    has the method. *)
Definition toolbar_insert (toolbar item : pyobj) (pos : nat) : M unit :=
  guarded ToolbarInsert ;;
  match toolbar with
  | GtkWidget t _ (Some _) =>
      modify_host (fun h => with_window (map_container t (insert_at pos item) (window h)) h) ;;
      emit (EvToolbarInsert toolbar item pos)
  | _ => raise (AttributeError (PyObject toolbar) "insert")
  end.

(** [toolbar.remove(item)]. *)
Definition toolbar_remove (toolbar item : pyobj) : M unit :=
  guarded ToolbarRemove ;;
  match toolbar with
  | GtkWidget t _ (Some _) =>
      modify_host (fun h =>
        with_window
          (map_container t (List.filter (fun c => negb (is_item item c))) (window h)) h) ;;
      emit (EvToolbarRemove toolbar item)
  | _ => raise (AttributeError (PyObject toolbar) "remove")
  end.

(** [widget.get_parent()]. *)
Definition widget_get_parent (item : pyobj) : M (option pyobj) :=
  guarded WidgetGetParent ;;
  h <- get_host ;;
  ret (parent_in item (window h)).

(** The body of the [try] block of [do_activate], lines 200-205. *)
Definition activate_ui : M unit :=
  toolbar <- get_toolbar ;;
  match toolbar with
  | Some tb =>
      item <- create_toolbox ;;
      set_toolbox (Some item) ;;
      toolbar_insert tb item 2
  | None => GLib_warning toolbar_missing_warning
  end.

(** [do_activate], lines 192-207. *)
Definition do_activate : M unit :=
  Gst_init ;;
  set_pitch_element None ;;
  set_toolbox None ;;
  add_filter ;;
  try_except activate_ui (fun e => GLib_warning (activate_failed_warning e)).

(** The body of the [try] block of [do_deactivate], lines 214-218. *)
Definition deactivate_ui (item : pyobj) : M unit :=
  toolbar <- get_toolbar ;;
  match toolbar with
  | Some tb =>
      parent <- widget_get_parent item ;;
      match parent with
      | Some _ => toolbar_remove tb item
      | None => ret tt
      end
  | None => GLib_warning toolbar_gone_warning
  end.

(** [do_deactivate], lines 209-223. *)
Definition do_deactivate : M unit :=
  remove_filter ;;
  p <- get_self ;;
  match toolbox p with
  | Some item =>
      try_except (deactivate_ui item)
        (fun e => GLib_warning (deactivate_failed_warning e))
  | None => ret tt
  end ;;
  set_toolbox None ;;
  set_pitch_element None.

(** ** Vocabulary of the statements *)

(** The three property writes of one handler run, as store update and as
    events. *)
Definition write_all (e : nat) (p : Plugin) (m : gmap nat ElemProps) : gmap nat ElemProps :=
  alter (set_rate (rate_of (value (speed_adj p)))) e
    (alter (set_pitch (pitch_of (value (pitch_adj p)))) e
       (alter (set_tempo (tempo_of (value (tempo_adj p)))) e m)).

Definition handler_writes (e : nat) (p : Plugin) : list event :=
  [EvSetTempo e (tempo_of (value (tempo_adj p)));
   EvSetPitch e (pitch_of (value (pitch_adj p)));
   EvSetRate e (rate_of (value (speed_adj p)))].

(** The properties the formulas give for the current adjustment values. *)
Definition derived (p : Plugin) : ElemProps :=
  {| tempo := tempo_of (value (tempo_adj p));
     pitch := pitch_of (value (pitch_adj p));
     rate := rate_of (value (speed_adj p)) |}.

(** Factory calls and handler runs in a trace. *)
Definition is_make (ev : event) : bool :=
  match ev with EvElementFactoryMake _ => true | _ => false end.
Definition is_run (ev : event) : bool :=
  match ev with EvPropertyChanged _ => true | _ => false end.

Definition make_attempts (tr : list event) : nat := length (List.filter is_make tr).
Definition handler_runs (tr : list event) : nat := length (List.filter is_run tr).

(** 1 for a value that [set_value(0)] changes, 0 for one it does not. *)
Definition nonzero (x : R) : nat := if Req_dec_T x 0 then 0 else 1.

(** The effect of [set_value(0)] on an adjustment of a plugin that holds
    its filter element [e]: nothing when the value is 0 already, otherwise
    the new value and one handler run. *)
Definition zeroed (e : nat) (k : adj_id) (s : State) : State :=
  if Req_dec_T (value (adj_of k (self s))) 0 then s
  else
    let p' := with_adj k (with_value 0 (adj_of k (self s))) (self s) in
    {| self := p';
       host := with_elements (write_all e p' (elements (host s))) (host s);
       trace := trace s ++ EvPropertyChanged k :: handler_writes e p' |}.

(** The events of a handler run that [reset] causes for adjustment [k]
    when its value was [old], the three adjustments then holding
    [t], [p], [r]. *)
Definition reset_run (e : nat) (k : adj_id) (old t p r : R) : list event :=
  if Req_dec_T old 0 then []
  else [EvPropertyChanged k; EvSetTempo e (tempo_of t);
        EvSetPitch e (pitch_of p); EvSetRate e (rate_of r)].

(** A handler run that writes 1.0, 1.0, 1.0. *)
Definition neutral_run (e : nat) (k : adj_id) : list event :=
  [EvPropertyChanged k; EvSetTempo e 1; EvSetPitch e 1; EvSetRate e 1].

(** The reset as the design document words it: three handler runs, each
    writing the neutral values. *)
Definition reset_as_claimed (s : State) : Prop :=
  forall e, pitch_element (self s) = Some e ->
    trace (exec reset s) =
    trace s ++ neutral_run e TempoAdj ++ neutral_run e PitchAdj ++ neutral_run e SpeedAdj.

(** What [do_activate] does before it enters its [try] block. *)
Definition activate_prologue : M unit :=
  Gst_init ;; set_pitch_element None ;; set_toolbox None ;; add_filter.

(** What [do_deactivate] does between [remove_filter] and the clearing
    of the handles. *)
Definition deactivate_teardown (t : option pyobj) : M unit :=
  match t with
  | Some item =>
      try_except (deactivate_ui item)
        (fun e => GLib_warning (deactivate_failed_warning e))
  | None => ret tt
  end.

(** The host gains or loses the GStreamer element behind the plugin's
    back. *)
Definition host_sets_pitch (b : bool) (s : State) : State :=
  {| self := self s;
     host := {| gst_has_pitch := b; next_element := next_element (host s);
                elements := elements (host s); filters := filters (host s);
                window := window (host s); next_widget := next_widget (host s);
                raises := raises (host s) |};
     trace := trace s |}.

(** ** Invariants of the running plugin *)

(** The plugin with the three adjustments [create_toolbox] makes. *)
Definition fresh_adjustments (p : Plugin) : Plugin :=
  with_adj SpeedAdj (adjustment_at 0 (-50) 200 5 10)
    (with_adj PitchAdj (adjustment_at 0 (-12) 12 1 3)
       (with_adj TempoAdj (adjustment_at 0 (-50) 200 5 10) p)).

(** The three adjustments are connected to [property_changed], as
    [create_adj] leaves them. *)
Definition wired (p : Plugin) : Prop :=
  forall k, handlers (adj_of k p) = [CbPropertyChanged].

(** 0, the value [reset] sets, is a value the adjustments can hold. *)
Definition zero_in_range (p : Plugin) : Prop :=
  forall k, (lower (adj_of k p) <= 0 <= upper (adj_of k p) - page_size (adj_of k p))%R.

(** The plugin's handle, when it has one, refers to a live element. *)
Definition handle_valid (s : State) : Prop :=
  forall e, pitch_element (self s) = Some e -> is_Some (elements (host s) !! e).

(** What [reset] and [set_value] need of a state to run the handler. *)
Definition adjs_wired (s : State) : Prop :=
  wired (self s) /\ zero_in_range (self s) /\ handle_valid s.

(** The element the plugin holds is either as the factory made it or
    carries the properties derived from the adjustments: the handler
    writes all three after every change of an adjustment. *)
Definition filter_consistent (s : State) : Prop :=
  forall e, pitch_element (self s) = Some e ->
    exists pr, elements (host s) !! e = Some pr /\
               (pr = gst_pitch_defaults \/ pr = derived (self s)).

(** The invariant of the running plugin ([running_plugin_inv]). *)
Definition plugin_inv (s : State) : Prop :=
  wired (self s) /\ zero_in_range (self s) /\ filter_consistent s.

(** Two plugin states with the same three adjustments. *)
Definition same_adjustments (p q : Plugin) : Prop :=
  tempo_adj p = tempo_adj q /\ pitch_adj p = pitch_adj q /\ speed_adj p = speed_adj q.

(** The bounds [create_toolbox] gives the three adjustments. *)
Definition bounds_of (k : adj_id) : R * R :=
  match k with
  | TempoAdj => ((-50)%R, 200%R)
  | PitchAdj => ((-12)%R, 12%R)
  | SpeedAdj => ((-50)%R, 200%R)
  end.

(** The adjustments have these bounds and hold values within them. *)
Definition within_bounds (p : Plugin) : Prop :=
  forall k,
    lower (adj_of k p) = fst (bounds_of k) /\
    upper (adj_of k p) = snd (bounds_of k) /\
    page_size (adj_of k p) = 0%R /\
    (fst (bounds_of k) <= value (adj_of k p) <= snd (bounds_of k))%R.

(** The host lets the toolbox be built: the window can be reached, it
    holds the toolbar, and the toolkit's constructors work. *)
Definition ui_available (s : State) : Prop :=
  raises (host s) ShellWindow = None /\
  raises (host s) GtkConstruct = None /\
  is_Some (find_widget_by_name (window (host s)) "main-toolbar").

(** What the user does with the toolbox: moves a slider or edits a spin
    button, which calls [set_value] on its adjustment, or clicks the reset
    button. *)
Inductive user_action : Type :=
| Slide (k : adj_id) (v : R)
| ClickReset.

Definition perform (a : user_action) : M unit :=
  match a with
  | Slide k v => adj_set_value k v
  | ClickReset => reset
  end.

(** The states the plugin goes through once its toolbox is on screen:
    after an activation that returned normally. *)
Inductive running : State -> Prop :=
| running_activated s : outcome do_activate s = Returns tt -> running (exec do_activate s)
| running_action s a : running s -> running (exec (perform a) s)
| running_host s b : running s -> running (host_sets_pitch b s).

(** ** Example states *)

(** A host window that holds the main toolbar among other widgets, the
    toolbar holding [items] after its own two. *)
Definition rhythmbox_window_with (items : list pyobj) : pyobj :=
  GtkWidget 0 (Some "main-window"%string)
    (Some [GtkWidget 1 (Some "main-vbox"%string)
             (Some [GtkWidget 2 (Some "main-toolbar"%string)
                      (Some (GtkWidget 3 (Some "play-button"%string) None ::
                             GtkWidget 4 (Some "song-info"%string) None :: items));
                    GtkWidget 5 (Some "paned"%string) (Some [])])]).

Definition rhythmbox_window : pyobj := rhythmbox_window_with [].

(** A window whose toolbar is not a container, so that [insert] on it
    raises. *)
Definition odd_window : pyobj :=
  GtkWidget 0 (Some "main-window"%string)
    (Some [GtkWidget 2 (Some "main-toolbar"%string) None]).

(** A window without a toolbar. *)
Definition bare_window : pyobj :=
  GtkWidget 0 (Some "main-window"%string)
    (Some [GtkWidget 5 (Some "paned"%string) (Some [])]).

(** The plugin's tool item, reduced to its outer boxes. *)
Definition toolbox_item : pyobj :=
  GtkWidget 130 None (Some [GtkWidget 100 None (Some [])]).

(** A host with window [w], no element made yet and no failing call. *)
Definition rhythmbox (has_pitch : bool) (w : pyobj) : Host :=
  {| gst_has_pitch := has_pitch; next_element := 0; elements := ∅;
     filters := []; window := w; next_widget := 100;
     raises := fun _ => None |}.

Definition with_raises (f : ui_call -> option exn) (h : Host) : Host :=
  {| gst_has_pitch := gst_has_pitch h; next_element := next_element h;
     elements := elements h; filters := filters h; window := window h;
     next_widget := next_widget h; raises := f |}.

(** A plugin showing tempo +10, pitch +3, speed +20, its filter element 7
    in the pipeline with the matching properties. *)
Definition busy_plugin : Plugin :=
  {| pitch_element := Some 7%nat; toolbox := Some toolbox_item;
     tempo_adj := adjustment_at 10 (-50) 200 5 10;
     pitch_adj := adjustment_at 3 (-12) 12 1 3;
     speed_adj := adjustment_at 20 (-50) 200 5 10 |}.

Definition busy_state : State :=
  {| self := busy_plugin;
     host := with_filters [7%nat]
               (with_next_element 8
                  (with_elements {[ 7%nat := derived busy_plugin ]}
                     (rhythmbox true (rhythmbox_window_with [toolbox_item]))));
     trace := [] |}.

(** The same plugin with the three adjustments at rest. *)
Definition idle_plugin : Plugin :=
  {| pitch_element := Some 7%nat; toolbox := Some toolbox_item;
     tempo_adj := adjustment_at 0 (-50) 200 5 10;
     pitch_adj := adjustment_at 0 (-12) 12 1 3;
     speed_adj := adjustment_at 0 (-50) 200 5 10 |}.

Definition idle_state : State :=
  {| self := idle_plugin;
     host := with_filters [7%nat]
               (with_next_element 8
                  (with_elements {[ 7%nat := gst_pitch_defaults ]}
                     (rhythmbox true (rhythmbox_window_with [toolbox_item]))));
     trace := [] |}.

(** A plugin without handles, as [do_activate] has it at line 196 and as
    a deactivation leaves it, in a host without the element. *)
Definition fresh_plugin : Plugin :=
  {| pitch_element := None; toolbox := None;
     tempo_adj := adjustment_at 0 (-50) 200 5 10;
     pitch_adj := adjustment_at 0 (-12) 12 1 3;
     speed_adj := adjustment_at 0 (-50) 200 5 10 |}.

Definition state_without_pitch : State :=
  {| self := fresh_plugin; host := rhythmbox false rhythmbox_window; trace := [] |}.

(** The same plugin in a host that has the element but no toolbar, and in
    one whose toolbar is no container. *)
Definition state_without_toolbar : State :=
  {| self := fresh_plugin; host := rhythmbox true bare_window; trace := [] |}.

Definition state_with_odd_toolbar : State :=
  {| self := fresh_plugin; host := rhythmbox true odd_window; trace := [] |}.

(** The busy plugin in a host where every guarded call raises, and in one
    whose window has lost the toolbar. *)
Definition state_with_failing_ui : State :=
  {| self := busy_plugin;
     host := with_raises (fun _ => Some (Exception "GLib.Error")) (host busy_state);
     trace := [] |}.

Definition state_with_toolbar_gone : State :=
  {| self := busy_plugin;
     host := with_window bare_window (host busy_state);
     trace := [] |}.

(** ** Further invariants and vocabulary *)

(** The element the plugin holds carries the properties derived from the
    adjustments. *)
Definition synced (s : State) : Prop :=
  forall e, pitch_element (self s) = Some e ->
            elements (host s) !! e = Some (derived (self s)).

(** The element the plugin holds is in the player's filter chain. *)
Definition attached (s : State) : Prop :=
  forall e, pitch_element (self s) = Some e -> In e (filters (host s)).

(** The state with adjustment [k] replaced: what [set_value] stores before
    it emits value-changed. *)
Definition store_adj (k : adj_id) (a : Adjustment) (s : State) : State :=
  {| self := with_adj k a (self s); host := host s; trace := trace s |}.

(** The plugin without handles in a host that has both the element and
    the toolbar. *)
Definition state_with_toolbar : State :=
  {| self := fresh_plugin; host := rhythmbox true rhythmbox_window; trace := [] |}.

(** The second state has the handle, the filter chain, the elements and
    the factory of the first. *)
Definition pipeline_untouched (s s' : State) : Prop :=
  pitch_element (self s') = pitch_element (self s) /\
  filters (host s') = filters (host s) /\
  elements (host s') = elements (host s) /\
  next_element (host s') = next_element (host s) /\
  gst_has_pitch (host s') = gst_has_pitch (host s).

(** The for-loop of [parent_in] on its own. *)
Definition parent_in_children (item : pyobj) (cs : list pyobj) : option pyobj :=
  (fix each_child (l : list pyobj) : option pyobj :=
     match l with
     | [] => None
     | child :: rest =>
         match parent_in item child with
         | Some ans => Some ans
         | None => each_child rest
         end
     end) cs.

(** Every widget of the tree has an identifier below [n]: the widgets a
    host with [next_widget = n] has made so far. *)
Fixpoint ids_below (n : nat) (o : pyobj) : bool :=
  match o with
  | PyOther => true
  | GtkWidget w _ kids =>
      Nat.ltb w n &&
      match kids with
      | Some cs => List.forallb (ids_below n) cs
      | None => true
      end
  end.

(** What [toolbar.remove] does to the children of the toolbar. *)
Definition removing (item : pyobj) : list pyobj -> list pyobj :=
  List.filter (fun c => negb (is_item item c)).

(** The tool item [create_toolbox] returns when the next widget
    identifier is [n]: the item around a vertical box that holds the row of
    four buttons (each around its label or icon) and the stack of the three
    slider boxes (each a scale and a spin button). *)
Definition toolbox_widgets (n : nat) : pyobj :=
  let leaf k := GtkWidget (k + n) None None in
  let button k := GtkWidget (S k + n) None (Some [leaf k]) in
  let slider k := GtkWidget (k + n) None (Some [leaf (S k); leaf (S (S k))]) in
  GtkWidget (20 + n) None
    (Some [GtkWidget n None
             (Some [GtkWidget (1 + n) None
                      (Some [button 2; button 4; button 6; button 8]);
                    GtkWidget (10 + n) None
                      (Some [slider 11; slider 14; slider 17])])]).

(** ** Theorems *)

Create HintDb method discriminated.
#[local] Hint Unfold ret bind raise try_except get_self get_host modify_self
  modify_host emit exec outcome Gst_init Gst_ElementFactory_make
  player_add_filter player_remove_filter GLib_warning props_set_tempo
  props_set_pitch props_set_rate guarded adj_get_value set_pitch_element
  set_toolbox : method.

Ltac run := repeat (autounfold with method; cbn).
#[local] Arguments add_filter : simpl never.
#[local] Arguments remove_filter : simpl never.
#[local] Arguments property_changed : simpl never.
#[local] Arguments run_callback : simpl never.
#[local] Arguments adj_set_value : simpl never.
#[local] Arguments reset : simpl never.

(** ** The widget search *)

(** Induction over a widget tree with the hypothesis available for every
    child. *)
Lemma pyobj_tree_ind (P : pyobj -> Prop) :
  P PyOther ->
  (forall w bn, P (GtkWidget w bn None)) ->
  (forall w bn cs, Forall P cs -> P (GtkWidget w bn (Some cs))) ->
  forall o, P o.
Proof.
  intros Hother Hleaf Hnode.
  fix IH 1.
  intros [| w bn [cs |]].
  - exact Hother.
  - apply Hnode.
    induction cs as [| c cs IHcs]; constructor.
    + apply IH.
    + exact IHcs.
  - apply Hleaf.
Qed.

Lemma find_widget_by_name_container w bn cs name :
  find_widget_by_name (GtkWidget w bn (Some cs)) name =
  if name_matches bn name then Some (GtkWidget w bn (Some cs))
  else find_in_children cs name.
Proof.
  simpl. destruct (name_matches bn name); reflexivity.
Qed.

Lemma find_in_children_cons c cs name :
  find_in_children (c :: cs) name =
  match find_widget_by_name c name with
  | Some ans => Some ans
  | None => find_in_children cs name
  end.
Proof. reflexivity. Qed.

Lemma preorder_container w bn cs :
  preorder (GtkWidget w bn (Some cs)) =
  GtkWidget w bn (Some cs) :: preorder_list cs.
Proof. reflexivity. Qed.

Lemma find_app {A} (f : A -> bool) (l1 l2 : list A) :
  List.find f (l1 ++ l2) =
  match List.find f l1 with
  | Some x => Some x
  | None => List.find f l2
  end.
Proof.
  induction l1 as [| a l1 IHl1]; simpl; [reflexivity |].
  destruct (f a); [reflexivity | exact IHl1].
Qed.

Lemma find_widget_by_name_preorder root name :
  find_widget_by_name root name = first_in_preorder root name.
Proof.
  unfold first_in_preorder.
  induction root as [| w bn | w bn cs IHcs] using pyobj_tree_ind.
  - reflexivity.
  - simpl. destruct (name_matches bn name); reflexivity.
  - rewrite find_widget_by_name_container, preorder_container.
    simpl. destruct (name_matches bn name); [reflexivity |].
    induction IHcs as [| c cs Hc _ IH]; [reflexivity |].
    rewrite find_in_children_cons. simpl preorder_list.
    rewrite find_app, <- Hc.
    destruct (find_widget_by_name c name); [reflexivity | exact IH].
Qed.

Lemma find_first_split {A} (f : A -> bool) (l : list A) (x : A) :
  List.find f l = Some x ->
  f x = true /\
  exists before after,
    l = before ++ x :: after /\ forall y, In y before -> f y = false.
Proof.
  induction l as [| a l IH]; intros H; [discriminate |].
  cbn in H. destruct (f a) eqn:Ha.
  - injection H as <-. split; [exact Ha |].
    exists [], l. split; [reflexivity | intros y []].
  - destruct (IH H) as (Hx & before & after & -> & Hb).
    split; [exact Hx |].
    exists (a :: before), after. split; [reflexivity |].
    intros y [<- | Hy]; [exact Ha | exact (Hb y Hy)].
Qed.

Lemma find_all_false {A} (f : A -> bool) (l : list A) :
  (forall y, In y l -> f y = false) -> List.find f l = None.
Proof.
  induction l as [| a l IH]; intros H; [reflexivity |].
  cbn. rewrite (H a) by now left. apply IH. intros y Hy. apply H. now right.
Qed.

(** C10.  [find_widget_by_name] returns the first widget of the tree, in
    depth-first pre-order, that bears the name: the result is the first
    element of [preorder root] that passes the test, every widget before it
    fails the test, and the result is [None] when the root is no widget or
    no widget of the tree bears the name. *)
Theorem find_widget_by_name_first_in_preorder (root : pyobj) (name : string) :
  find_widget_by_name root name = List.find (bears_name name) (preorder root) /\
  (is_widget root = false -> find_widget_by_name root name = None) /\
  ((forall w, In w (preorder root) -> bears_name name w = false) ->
   find_widget_by_name root name = None) /\
  (forall w, find_widget_by_name root name = Some w ->
     bears_name name w = true /\
     exists before after,
       preorder root = before ++ w :: after /\
       forall x, In x before -> bears_name name x = false).
Proof.
  pose proof (find_widget_by_name_preorder root name) as Heq.
  unfold first_in_preorder in Heq.
  split; [exact Heq |]. split; [| split].
  - destruct root; [reflexivity | discriminate].
  - intros Hnone. rewrite Heq. apply find_all_false. exact Hnone.
  - intros w Hw. rewrite Heq in Hw. exact (find_first_split _ _ _ Hw).
Qed.

(** ** The filter element and the handler *)

Lemma with_pitch_element_id p : with_pitch_element (pitch_element p) p = p.
Proof. destruct p; reflexivity. Qed.

Lemma add_filter_present s e :
  pitch_element (self s) = Some e -> add_filter s = (Returns tt, s).
Proof.
  intros H. unfold add_filter. run. rewrite H. reflexivity.
Qed.

Lemma add_filter_unavailable s :
  pitch_element (self s) = None -> gst_has_pitch (host s) = false ->
  add_filter s =
  (Raises no_warning_attribute,
   {| self := self s; host := host s;
      trace := trace s ++ [EvElementFactoryMake None] |}).
Proof.
  intros Hh Hg. unfold add_filter. run. rewrite Hh, Hg. run.
  rewrite <- Hh, with_pitch_element_id. reflexivity.
Qed.

Lemma add_filter_available s :
  pitch_element (self s) = None -> gst_has_pitch (host s) = true ->
  let e := next_element (host s) in
  add_filter s =
  (Returns tt,
   {| self := with_pitch_element (Some e) (self s);
      host := with_filters (filters (host s) ++ [e])
                (with_next_element (S e)
                   (with_elements (<[e := gst_pitch_defaults]> (elements (host s))) (host s)));
      trace := trace s ++ [EvElementFactoryMake (Some e); EvPlayerAddFilter e] |}).
Proof.
  intros Hh Hg. unfold add_filter. run. rewrite Hh, Hg. run.
  rewrite <- app_assoc. reflexivity.
Qed.

Lemma property_changed_present s e k :
  pitch_element (self s) = Some e ->
  property_changed k s =
  (Returns tt,
   {| self := self s;
      host := with_elements (write_all e (self s) (elements (host s))) (host s);
      trace := trace s ++ EvPropertyChanged k :: handler_writes e (self s) |}).
Proof.
  intros Hh. unfold property_changed. run.
  unfold add_filter. run. rewrite Hh. run. rewrite Hh. run.
  rewrite <- !app_assoc. reflexivity.
Qed.

Lemma property_changed_unavailable s k :
  pitch_element (self s) = None -> gst_has_pitch (host s) = false ->
  property_changed k s =
  (Raises no_warning_attribute,
   {| self := self s; host := host s;
      trace := trace s ++ [EvPropertyChanged k; EvElementFactoryMake None] |}).
Proof.
  intros Hh Hg. unfold property_changed. run.
  rewrite add_filter_unavailable by assumption. run.
  rewrite <- !app_assoc. reflexivity.
Qed.

Lemma property_changed_available s k :
  pitch_element (self s) = None -> gst_has_pitch (host s) = true ->
  let e := next_element (host s) in
  property_changed k s =
  (Returns tt,
   {| self := with_pitch_element (Some e) (self s);
      host := with_filters (filters (host s) ++ [e])
                (with_next_element (S e)
                   (with_elements
                      (write_all e (self s) (<[e := gst_pitch_defaults]> (elements (host s))))
                      (host s)));
      trace := trace s ++ [EvPropertyChanged k; EvElementFactoryMake (Some e);
                           EvPlayerAddFilter e] ++ handler_writes e (self s) |}).
Proof.
  intros Hh Hg. unfold property_changed. run.
  rewrite add_filter_available by assumption. run.
  rewrite <- !app_assoc. reflexivity.
Qed.

Lemma write_all_lookup e p m old :
  m !! e = Some old ->
  write_all e p m !! e =
  Some {| tempo := tempo_of (value (tempo_adj p));
          pitch := pitch_of (value (pitch_adj p));
          rate := rate_of (value (speed_adj p)) |}.
Proof.
  intros H. unfold write_all. rewrite !lookup_alter_eq, H. reflexivity.
Qed.

Lemma write_all_lookup_ne e e' p m :
  e <> e' -> write_all e p m !! e' = m !! e'.
Proof.
  intros H. unfold write_all. rewrite !lookup_alter_ne by assumption. reflexivity.
Qed.

Lemma pitch_of_bounds (p : R) : (-12 <= p <= 12 -> 0.5 <= pitch_of p <= 2.0)%R.
Proof.
  intros [Hlo Hhi]. unfold pitch_of.
  assert (H2 : (0 < 2.0)%R) by lra.
  assert (Hup : Rpower 2.0 1 = 2.0%R) by (apply Rpower_1; lra).
  assert (Hdn : Rpower 2.0 (Ropp 1) = 0.5%R) by (rewrite Rpower_Ropp, Hup; lra).
  split.
  - rewrite <- Hdn. apply Rle_Rpower; lra.
  - rewrite <- Hup at 2. apply Rle_Rpower; lra.
Qed.

Lemma pitch_of_zero : pitch_of 0 = 1%R.
Proof.
  unfold pitch_of. replace (0 / 12.0)%R with 0%R by lra. apply Rpower_O. lra.
Qed.

(** C1.  With the filter element present, a run of the handler leaves the
    element with tempo [v * 0.01 + 1.0], pitch [2 ^ (p / 12)] and rate
    [r * 0.01 + 1.0], where [v], [p], [r] are the values of the tempo, pitch
    and speed adjustments; for [v], [r] in [-50, 200] and [p] in [-12, 12],
    tempo and rate lie in [0.5, 3.0] and pitch in [0.5, 2.0]. *)
Theorem property_changed_formulas (s : State) (e : nat) (old : ElemProps) (k : adj_id) :
  pitch_element (self s) = Some e ->
  elements (host s) !! e = Some old ->
  (-50 <= value (tempo_adj (self s)) <= 200)%R ->
  (-12 <= value (pitch_adj (self s)) <= 12)%R ->
  (-50 <= value (speed_adj (self s)) <= 200)%R ->
  let v := value (tempo_adj (self s)) in
  let p := value (pitch_adj (self s)) in
  let r := value (speed_adj (self s)) in
  let s' := exec (property_changed k) s in
  outcome (property_changed k) s = Returns tt /\
  elements (host s') !! e =
    Some {| tempo := v * 0.01 + 1.0; pitch := Rpower 2.0 (p / 12.0); rate := r * 0.01 + 1.0 |} /\
  (0.5 <= v * 0.01 + 1.0 <= 3.0)%R /\
  (0.5 <= Rpower 2.0 (p / 12.0) <= 2.0)%R /\
  (0.5 <= r * 0.01 + 1.0 <= 3.0)%R.
Proof.
  intros Hh Hold Ht Hp Hr v p r s'.
  subst s'. unfold exec, outcome. rewrite (property_changed_present _ _ _ Hh). cbn.
  split; [reflexivity |].
  split; [exact (write_all_lookup _ _ _ _ Hold) |].
  split; [subst v; lra |].
  split; [exact (pitch_of_bounds _ Hp) | subst r; lra].
Qed.

(** ** Adjustments and the reset *)

Lemma clamp_value_zero a :
  (lower a <= 0 <= upper a - page_size a)%R -> clamp_value a 0 = 0%R.
Proof.
  intros [Hlo Hhi]. unfold clamp_value.
  rewrite Rmin_left by exact Hhi. apply Rmax_right. exact Hlo.
Qed.

Lemma adj_set_value_same s k v :
  clamp_value (adj_of k (self s)) v = value (adj_of k (self s)) ->
  adj_set_value k v s = (Returns tt, s).
Proof.
  intros H. unfold adj_set_value. run.
  destruct (Req_dec_T _ _) as [_ | Hne]; [reflexivity | contradiction].
Qed.

(** The handler as the signal emission runs it: with the element at
    hand, or with a host that can make it, it is the method itself; when the
    element cannot be made, the exception the method ends with is printed. *)
Lemma run_callback_present s e k :
  pitch_element (self s) = Some e ->
  run_callback k CbPropertyChanged s = property_changed k s.
Proof.
  intros Hh. unfold run_callback, try_except.
  rewrite (property_changed_present _ _ _ Hh). reflexivity.
Qed.

Lemma run_callback_available s k :
  pitch_element (self s) = None -> gst_has_pitch (host s) = true ->
  run_callback k CbPropertyChanged s = property_changed k s.
Proof.
  intros Hh Hg. unfold run_callback, try_except.
  rewrite (property_changed_available _ _ Hh Hg). reflexivity.
Qed.

Lemma run_callback_unavailable s k :
  pitch_element (self s) = None -> gst_has_pitch (host s) = false ->
  run_callback k CbPropertyChanged s =
  (Returns tt,
   {| self := self s; host := host s;
      trace := trace s ++ [EvPropertyChanged k; EvElementFactoryMake None;
                           EvTraceback no_warning_attribute] |}).
Proof.
  intros Hh Hg. unfold run_callback, try_except.
  rewrite (property_changed_unavailable _ _ Hh Hg). run.
  rewrite <- !app_assoc. reflexivity.
Qed.

Lemma adj_set_value_changed s k v :
  clamp_value (adj_of k (self s)) v <> value (adj_of k (self s)) ->
  handlers (adj_of k (self s)) = [CbPropertyChanged] ->
  adj_set_value k v s =
  run_callback k CbPropertyChanged
    {| self := with_adj k (with_value (clamp_value (adj_of k (self s)) v) (adj_of k (self s)))
                 (self s);
       host := host s; trace := trace s |}.
Proof.
  intros Hne Hw. unfold adj_set_value. run.
  destruct (Req_dec_T _ _) as [Heq | _]; [contradiction |].
  rewrite Hw. cbn. run.
  destruct (run_callback k _ _) as [[[] | e] s']; reflexivity.
Qed.

Lemma handler_runs_app tr tr' :
  handler_runs (tr ++ tr') = (handler_runs tr + handler_runs tr')%nat.
Proof. unfold handler_runs. rewrite List.filter_app, List.length_app. reflexivity. Qed.

Lemma make_attempts_app tr tr' :
  make_attempts (tr ++ tr') = (make_attempts tr + make_attempts tr')%nat.
Proof. unfold make_attempts. rewrite List.filter_app, List.length_app. reflexivity. Qed.

Lemma derived_same p q : same_adjustments p q -> derived p = derived q.
Proof. intros (Ht & Hp & Hs). unfold derived. rewrite Ht, Hp, Hs. reflexivity. Qed.

(** One run of the handler inside an emission: the emission goes on,
    the adjustments and the toolbox are left alone, and whatever element the
    plugin then holds carries the derived properties. *)
Lemma run_callback_post s k :
  handle_valid s ->
  let s' := exec (run_callback k CbPropertyChanged) s in
  outcome (run_callback k CbPropertyChanged) s = Returns tt /\
  same_adjustments (self s') (self s) /\
  toolbox (self s') = toolbox (self s) /\
  handler_runs (trace s') = S (handler_runs (trace s)) /\
  (forall e, pitch_element (self s') = Some e ->
             elements (host s') !! e = Some (derived (self s'))).
Proof.
  intros Hv. unfold exec, outcome.
  destruct (pitch_element (self s)) as [e |] eqn:Hh.
  - rewrite (run_callback_present _ _ _ Hh).
    rewrite (property_changed_present _ _ _ Hh). cbn [fst snd self host trace].
    destruct (Hv e Hh) as [old Hold].
    repeat split.
    + rewrite handler_runs_app. cbn. lia.
    + intros e' He'. rewrite Hh in He'. injection He' as <-.
      exact (write_all_lookup _ _ _ _ Hold).
  - destruct (gst_has_pitch (host s)) eqn:Hg.
    + rewrite (run_callback_available _ _ Hh Hg).
      rewrite (property_changed_available _ _ Hh Hg). cbn [fst snd self host trace].
      repeat split.
      * rewrite handler_runs_app. cbn. lia.
      * intros e' He'. injection He' as <-.
        unfold derived. cbn.
        erewrite write_all_lookup; [reflexivity | apply lookup_insert_eq].
    + rewrite (run_callback_unavailable _ _ Hh Hg). cbn [fst snd self host trace].
      repeat split.
      * rewrite handler_runs_app. cbn. lia.
      * intros e' He'. congruence.
Qed.

Lemma adj_of_with_adj_eq k a p : adj_of k (with_adj k a p) = a.
Proof. destruct k; reflexivity. Qed.

Lemma adj_of_with_adj_ne k k' a p : k <> k' -> adj_of k' (with_adj k a p) = adj_of k' p.
Proof. destruct k, k'; intros H; try reflexivity; contradiction. Qed.

Lemma same_adjustments_adj_of p q :
  same_adjustments p q -> forall k, adj_of k p = adj_of k q.
Proof. intros (Ht & Hp & Hs) []; assumption. Qed.

(** [set_value] on an adjustment that [create_adj] made. *)
Lemma adj_set_value_post s k v :
  handle_valid s ->
  handlers (adj_of k (self s)) = [CbPropertyChanged] ->
  let a := adj_of k (self s) in
  let s' := exec (adj_set_value k v) s in
  outcome (adj_set_value k v) s = Returns tt /\
  adj_of k (self s') = with_value (clamp_value a v) a /\
  (forall k', k <> k' -> adj_of k' (self s') = adj_of k' (self s)) /\
  toolbox (self s') = toolbox (self s) /\
  handler_runs (trace s') =
    ((if Req_dec_T (clamp_value a v) (value a) then 0 else 1) + handler_runs (trace s))%nat /\
  handle_valid s' /\
  (forall e, pitch_element (self s') = Some e ->
     elements (host s') !! e = Some (derived (self s')) \/
     (clamp_value a v = value a /\ pitch_element (self s) = Some e /\
      elements (host s') !! e = elements (host s) !! e)).
Proof.
  intros Hv Hw a s'. subst s'. unfold exec, outcome.
  destruct (Req_dec_T (clamp_value a v) (value a)) as [Heq | Hne].
  - rewrite (adj_set_value_same _ _ _ Heq). cbn.
    repeat split; try assumption; try reflexivity.
    + fold a. rewrite Heq. destruct a; reflexivity.
    + intros e He. right. auto.
  - rewrite (adj_set_value_changed _ _ _ Hne Hw). fold a.
    set (s1 := {| self := with_adj k (with_value (clamp_value a v) a) (self s);
                  host := host s; trace := trace s |}).
    assert (Hv1 : handle_valid s1).
    { intros e He. apply Hv. destruct k; exact He. }
    destruct (run_callback_post s1 k Hv1) as (Hr & Hsame & Htb & Hruns & Hsync).
    unfold exec, outcome in *.
    repeat split.
    + exact Hr.
    + rewrite (same_adjustments_adj_of _ _ Hsame). apply adj_of_with_adj_eq.
    + intros k' Hk. rewrite (same_adjustments_adj_of _ _ Hsame).
      apply adj_of_with_adj_ne. exact Hk.
    + rewrite Htb. destruct k; reflexivity.
    + rewrite Hruns. reflexivity.
    + intros e He. rewrite (Hsync e He). eauto.
    + intros e He. left. exact (Hsync e He).
Qed.

Lemma bind_returns {A B} (m : M A) (f : A -> M B) s a :
  outcome m s = Returns a -> bind m f s = f a (exec m s).
Proof.
  unfold outcome, exec, bind. destruct (m s) as [[a' | e] s']; cbn; congruence.
Qed.

Lemma returns_eq {A} (m : M A) s a : outcome m s = Returns a -> m s = (Returns a, exec m s).
Proof. unfold outcome, exec. destruct (m s); cbn. congruence. Qed.

Lemma plugin_inv_adjs_wired s : plugin_inv s -> adjs_wired s.
Proof.
  intros (Hw & Hz & Hc). split; [exact Hw |]. split; [exact Hz |].
  intros e He. destruct (Hc e He) as (pr & Hpr & _). eauto.
Qed.

Lemma derived_adj_of p q : (forall k, adj_of k p = adj_of k q) -> derived p = derived q.
Proof.
  intros H. apply derived_same.
  repeat split; [apply (H TempoAdj) | apply (H PitchAdj) | apply (H SpeedAdj)].
Qed.

Lemma with_value_same a : with_value (value a) a = a.
Proof. destruct a; reflexivity. Qed.

(** Every [set_value] returns and keeps the adjustments wired. *)
Lemma adj_set_value_wired s k v :
  adjs_wired s ->
  outcome (adj_set_value k v) s = Returns tt /\ adjs_wired (exec (adj_set_value k v) s).
Proof.
  intros (Hw & Hz & Hv).
  destruct (adj_set_value_post s k v Hv (Hw k)) as (Hr & Hk & Hother & _ & _ & Hv' & _).
  cbv zeta in *.
  set (s' := exec (adj_set_value k v) s) in *.
  split; [exact Hr |]. split; [| split; [| exact Hv']].
  - intros k'. destruct (decide (k = k')) as [<- | Hne].
    + rewrite Hk. apply Hw.
    + rewrite (Hother _ Hne). apply Hw.
  - intros k'. destruct (decide (k = k')) as [<- | Hne].
    + rewrite Hk. apply Hz.
    + rewrite (Hother _ Hne). apply Hz.
Qed.

(** The invariant survives every [set_value], whatever the new value. *)
Lemma adj_set_value_inv s k v :
  plugin_inv s -> plugin_inv (exec (adj_set_value k v) s).
Proof.
  intros Hinv.
  pose proof (plugin_inv_adjs_wired _ Hinv) as Hok.
  destruct (adj_set_value_wired s k v Hok) as (_ & Hw' & Hz' & _).
  destruct Hok as (Hw & _ & Hv). destruct Hinv as (_ & _ & Hc).
  destruct (adj_set_value_post s k v Hv (Hw k)) as (_ & Hk & Hother & _ & _ & _ & Hsync).
  cbv zeta in *.
  set (s' := exec (adj_set_value k v) s) in *.
  split; [exact Hw' |]. split; [exact Hz' |].
  intros e He. destruct (Hsync e He) as [Hs | (Heq & Hold & Hel)].
  - eauto.
  - destruct (Hc e Hold) as (pr & Hpr & Hcase).
    exists pr. split; [congruence |].
    destruct Hcase as [-> | ->]; [now left | right].
    apply derived_adj_of. intros k'.
    destruct (decide (k = k')) as [<- | Hne].
    + rewrite Hk, Heq. symmetry. apply with_value_same.
    + symmetry. apply Hother. exact Hne.
Qed.

Lemma adj_set_value_zero s k :
  adjs_wired s ->
  let s' := exec (adj_set_value k 0) s in
  value (adj_of k (self s')) = 0%R /\
  (forall k', k <> k' -> adj_of k' (self s') = adj_of k' (self s)) /\
  handler_runs (trace s') =
    (handler_runs (trace s) + nonzero (value (adj_of k (self s))))%nat.
Proof.
  intros (Hw & Hz & Hv).
  destruct (adj_set_value_post s k 0 Hv (Hw k)) as (_ & Hk & Hother & _ & Hruns & _).
  cbv zeta in *. rewrite (clamp_value_zero _ (Hz k)) in *.
  repeat split; [rewrite Hk; reflexivity | exact Hother |].
  rewrite Hruns. unfold nonzero.
  destruct (Req_dec_T 0 (value (adj_of k (self s)))),
           (Req_dec_T (value (adj_of k (self s))) 0); congruence || lia.
Qed.

(** [reset] is its three [set_value] calls, none of which raises. *)
Lemma reset_unfold s :
  adjs_wired s ->
  reset s =
  (Returns tt,
   exec (adj_set_value SpeedAdj 0)
     (exec (adj_set_value PitchAdj 0) (exec (adj_set_value TempoAdj 0) s))).
Proof.
  intros H0.
  destruct (adj_set_value_wired s TempoAdj 0 H0) as (R1 & H1).
  destruct (adj_set_value_wired _ PitchAdj 0 H1) as (R2 & H2).
  destruct (adj_set_value_wired _ SpeedAdj 0 H2) as (R3 & _).
  unfold reset.
  rewrite (bind_returns _ _ _ _ R1), (bind_returns _ _ _ _ R2).
  apply returns_eq. exact R3.
Qed.

Lemma reset_post s :
  adjs_wired s ->
  let s' := exec reset s in
  outcome reset s = Returns tt /\
  value (tempo_adj (self s')) = 0%R /\
  value (pitch_adj (self s')) = 0%R /\
  value (speed_adj (self s')) = 0%R /\
  handler_runs (trace s') =
    (handler_runs (trace s) +
     (nonzero (value (tempo_adj (self s))) + nonzero (value (pitch_adj (self s))) +
      nonzero (value (speed_adj (self s)))))%nat.
Proof.
  intros H0. unfold exec at 1, outcome. rewrite (reset_unfold s H0). cbn [fst snd].
  destruct (adj_set_value_wired s TempoAdj 0 H0) as (_ & H1).
  destruct (adj_set_value_wired _ PitchAdj 0 H1) as (_ & H2).
  destruct (adj_set_value_zero s TempoAdj H0) as (V1 & O1 & N1).
  destruct (adj_set_value_zero _ PitchAdj H1) as (V2 & O2 & N2).
  destruct (adj_set_value_zero _ SpeedAdj H2) as (V3 & O3 & N3).
  cbv zeta in *.
  set (s1 := exec (adj_set_value TempoAdj 0) s) in *.
  set (s2 := exec (adj_set_value PitchAdj 0) s1) in *.
  set (s3 := exec (adj_set_value SpeedAdj 0) s2) in *.
  split; [reflexivity |].
  split. { change (value (adj_of TempoAdj (self s3)) = 0%R).
           rewrite O3, O2 by discriminate. exact V1. }
  split. { change (value (adj_of PitchAdj (self s3)) = 0%R).
           rewrite O3 by discriminate. exact V2. }
  split; [exact V3 |].
  rewrite N3, N2, N1, (O2 SpeedAdj), (O1 SpeedAdj), (O1 PitchAdj) by discriminate.
  cbn [adj_of]. lia.
Qed.

Lemma reset_inv s : plugin_inv s -> plugin_inv (exec reset s).
Proof.
  intros H0. unfold exec at 1.
  rewrite (reset_unfold s (plugin_inv_adjs_wired _ H0)). cbn [snd].
  do 3 apply adj_set_value_inv. exact H0.
Qed.

Lemma derived_zero p :
  value (tempo_adj p) = 0%R -> value (pitch_adj p) = 0%R -> value (speed_adj p) = 0%R ->
  derived p = neutral.
Proof.
  intros Ht Hp Hs. unfold derived, neutral. rewrite Ht, Hp, Hs, pitch_of_zero.
  unfold tempo_of, rate_of. f_equal; lra.
Qed.

(** C2.  From every state of the running plugin, whatever the three
    adjustments hold, [reset] returns with all three adjustments at 0; the
    properties derived from them are (1.0, 1.0, 1.0), and these are the
    properties of the filter element the plugin holds afterwards. *)
Theorem reset_restores_neutral (s : State) :
  plugin_inv s ->
  let s' := exec reset s in
  outcome reset s = Returns tt /\
  value (tempo_adj (self s')) = 0%R /\
  value (pitch_adj (self s')) = 0%R /\
  value (speed_adj (self s')) = 0%R /\
  derived (self s') = neutral /\
  (forall e, pitch_element (self s') = Some e ->
             elements (host s') !! e = Some neutral).
Proof.
  intros H0 s'.
  destruct (reset_post s (plugin_inv_adjs_wired _ H0)) as (Hr & T3 & P3 & S3 & _).
  fold s' in T3, P3, S3.
  assert (D3 : derived (self s') = neutral) by (apply derived_zero; assumption).
  repeat split; try assumption.
  intros e He. destruct (reset_inv s H0) as (_ & _ & Hc).
  destruct (Hc e He) as (pr & Hpr & [-> | ->]); [exact Hpr |].
  fold s' in Hpr. rewrite Hpr, D3. reflexivity.
Qed.

Lemma adj_set_value_zero_present s e k :
  pitch_element (self s) = Some e ->
  handlers (adj_of k (self s)) = [CbPropertyChanged] ->
  (lower (adj_of k (self s)) <= 0
   <= upper (adj_of k (self s)) - page_size (adj_of k (self s)))%R ->
  adj_set_value k 0 s = (Returns tt, zeroed e k s).
Proof.
  intros Hh Hw Hz. unfold zeroed.
  pose proof (clamp_value_zero _ Hz) as Hc.
  destruct (Req_dec_T (value (adj_of k (self s))) 0) as [Heq | Hne].
  - apply adj_set_value_same. congruence.
  - rewrite adj_set_value_changed by (try assumption; rewrite Hc; congruence).
    rewrite Hc.
    rewrite (run_callback_present _ e) by (destruct k; exact Hh).
    rewrite (property_changed_present _ e) by (destruct k; exact Hh).
    reflexivity.
Qed.

Lemma zeroed_pitch_element e k s :
  pitch_element (self (zeroed e k s)) = pitch_element (self s).
Proof. unfold zeroed. destruct (Req_dec_T _ _); [reflexivity | destruct k; reflexivity]. Qed.

Lemma zeroed_adj_of_ne e k k' s :
  k <> k' -> adj_of k' (self (zeroed e k s)) = adj_of k' (self s).
Proof.
  intros Hne. unfold zeroed. destruct (Req_dec_T _ _); [reflexivity |].
  cbn. apply adj_of_with_adj_ne. exact Hne.
Qed.

Lemma reset_present s e :
  wired (self s) -> zero_in_range (self s) -> pitch_element (self s) = Some e ->
  reset s = (Returns tt, zeroed e SpeedAdj (zeroed e PitchAdj (zeroed e TempoAdj s))).
Proof.
  intros Hw Hz Hh. unfold reset.
  unfold bind at 1. rewrite (adj_set_value_zero_present s e TempoAdj Hh (Hw _) (Hz _)).
  unfold bind at 1.
  rewrite (adj_set_value_zero_present _ e PitchAdj).
  - apply adj_set_value_zero_present.
    + rewrite !zeroed_pitch_element. exact Hh.
    + rewrite !zeroed_adj_of_ne by discriminate. apply Hw.
    + rewrite !zeroed_adj_of_ne by discriminate. apply Hz.
  - rewrite zeroed_pitch_element. exact Hh.
  - rewrite zeroed_adj_of_ne by discriminate. apply Hw.
  - rewrite zeroed_adj_of_ne by discriminate. apply Hz.
Qed.

Lemma reset_trace_present s e :
  wired (self s) -> zero_in_range (self s) -> pitch_element (self s) = Some e ->
  let t := value (tempo_adj (self s)) in
  let p := value (pitch_adj (self s)) in
  let r := value (speed_adj (self s)) in
  trace (exec reset s) =
  trace s ++ reset_run e TempoAdj t 0 p r
          ++ reset_run e PitchAdj p 0 0 r
          ++ reset_run e SpeedAdj r 0 0 0.
Proof.
  intros Hw Hz Hh t p r. unfold exec. rewrite (reset_present s e Hw Hz Hh).
  cbn [snd]. subst t p r. unfold zeroed, reset_run.
  cbn [adj_of].
  destruct (Req_dec_T (value (tempo_adj (self s))) 0) as [Ht | Ht];
    cbn [self host trace with_adj adj_of tempo_adj pitch_adj speed_adj];
  destruct (Req_dec_T (value (pitch_adj (self s))) 0) as [Hp | Hp];
    cbn [self host trace with_adj adj_of tempo_adj pitch_adj speed_adj];
  destruct (Req_dec_T (value (speed_adj (self s))) 0) as [Hr | Hr];
    cbn [self host trace with_adj adj_of tempo_adj pitch_adj speed_adj];
  unfold handler_writes;
    cbn [self host trace with_adj adj_of tempo_adj pitch_adj speed_adj with_value value];
  rewrite ?Ht, ?Hp, ?Hr, <- ?app_assoc, ?app_nil_r; reflexivity.
Qed.

Lemma busy_wired : wired (self busy_state).
Proof. intros []; reflexivity. Qed.

Lemma busy_zero_in_range : zero_in_range (self busy_state).
Proof. intros []; cbn; lra. Qed.

Lemma idle_wired : wired (self idle_state).
Proof. intros []; reflexivity. Qed.

Lemma idle_zero_in_range : zero_in_range (self idle_state).
Proof. intros []; cbn; lra. Qed.

Lemma reset_run_nonzero e k old t p r :
  old <> 0%R ->
  reset_run e k old t p r =
  [EvPropertyChanged k; EvSetTempo e (tempo_of t); EvSetPitch e (pitch_of p);
   EvSetRate e (rate_of r)].
Proof. intros H. unfold reset_run. destruct (Req_dec_T old 0); [contradiction | reflexivity]. Qed.

Lemma reset_run_zero e k t p r : reset_run e k 0 t p r = [].
Proof. unfold reset_run. destruct (Req_dec_T 0 0); [reflexivity | contradiction]. Qed.

(** C3, refuted as worded.  With tempo +10, pitch +3 and speed +20 the
    first run that [reset] triggers writes rate 1.2, not 1.0; and with the
    three adjustments already at 0 it triggers no run at all. *)
Lemma reset_runs_not_all_neutral :
  ~ reset_as_claimed busy_state /\ ~ reset_as_claimed idle_state.
Proof.
  split; intros H; specialize (H 7%nat eq_refl).
  - rewrite (reset_trace_present busy_state 7 busy_wired busy_zero_in_range eq_refl) in H.
    cbn in H.
    rewrite !reset_run_nonzero in H by lra.
    unfold neutral_run in H. cbn in H.
    assert (Hrate : rate_of 20 = 1%R) by congruence.
    unfold rate_of in Hrate. lra.
  - rewrite (reset_trace_present idle_state 7 idle_wired idle_zero_in_range eq_refl) in H.
    cbn in H. rewrite !reset_run_zero in H. discriminate H.
Qed.

Lemma handler_runs_reset_run e k old t p r :
  handler_runs (reset_run e k old t p r) = nonzero old.
Proof. unfold reset_run, nonzero. destruct (Req_dec_T old 0); reflexivity. Qed.

Lemma reset_last_run_neutral e r :
  reset_run e SpeedAdj r 0 0 0 = if Req_dec_T r 0 then [] else neutral_run e SpeedAdj.
Proof.
  unfold reset_run, neutral_run. destruct (Req_dec_T r 0); [reflexivity |].
  rewrite pitch_of_zero. unfold tempo_of, rate_of.
  replace (0 * 0.01 + 1.0)%R with 1%R by lra. reflexivity.
Qed.

(** C3, as the code has it.  [reset] triggers the handler once for each
    adjustment that is not at 0 already, in the order tempo, pitch, speed:
    three times when none is, never more, and not at all when all are.
    Each run writes the properties derived from the adjustments as they
    stand at that moment: the tempo run still sees the old pitch and speed,
    the pitch run the old speed, and only the speed run writes
    1.0, 1.0, 1.0. *)
Theorem reset_runs_handler_per_changed_adjustment (s : State) :
  adjs_wired s ->
  let t := value (tempo_adj (self s)) in
  let p := value (pitch_adj (self s)) in
  let r := value (speed_adj (self s)) in
  let s' := exec reset s in
  outcome reset s = Returns tt /\
  handler_runs (trace s') =
    (handler_runs (trace s) + (nonzero t + nonzero p + nonzero r))%nat /\
  (handler_runs (trace s') <= handler_runs (trace s) + 3)%nat /\
  (forall e, pitch_element (self s) = Some e ->
     trace s' = trace s ++ reset_run e TempoAdj t 0 p r
                        ++ reset_run e PitchAdj p 0 0 r
                        ++ reset_run e SpeedAdj r 0 0 0 /\
     reset_run e SpeedAdj r 0 0 0 =
       (if Req_dec_T r 0 then [] else neutral_run e SpeedAdj)).
Proof.
  intros H0 t p r s'.
  destruct (reset_post s H0) as (Hr & _ & _ & _ & Hruns).
  fold t p r s' in Hruns.
  split; [exact Hr |]. split; [exact Hruns |]. split.
  - rewrite Hruns. unfold nonzero.
    destruct (Req_dec_T t 0), (Req_dec_T p 0), (Req_dec_T r 0); lia.
  - intros e He. destruct H0 as (Hw & Hz & _).
    split; [exact (reset_trace_present s e Hw Hz He) | apply reset_last_run_neutral].
Qed.

(** ** The filter element *)

(** C6.  When the plugin already holds its element, [add_filter] changes
    nothing: same handle, same host (no element made, filter chain as it
    was), nothing emitted. *)
Theorem add_filter_present_is_noop (s : State) (e : nat) :
  pitch_element (self s) = Some e ->
  add_filter s = (Returns tt, s) /\
  pitch_element (self (exec add_filter s)) = Some e /\
  filters (host (exec add_filter s)) = filters (host s) /\
  elements (host (exec add_filter s)) = elements (host s) /\
  next_element (host (exec add_filter s)) = next_element (host s) /\
  trace (exec add_filter s) = trace s.
Proof.
  intros Hh. unfold exec. rewrite (add_filter_present s e Hh). cbn.
  repeat split. exact Hh.
Qed.

Lemma remove_filter_absent s :
  pitch_element (self s) = None -> remove_filter s = (Returns tt, s).
Proof. intros Hh. unfold remove_filter. run. rewrite Hh. reflexivity. Qed.

Lemma remove_filter_present s e :
  pitch_element (self s) = Some e ->
  remove_filter s =
  (Returns tt,
   {| self := with_pitch_element None (self s);
      host := with_filters (List.remove Nat.eq_dec e (filters (host s))) (host s);
      trace := trace s ++ [EvPlayerRemoveFilter e] |}).
Proof. intros Hh. unfold remove_filter. run. rewrite Hh. reflexivity. Qed.

(** C7.  Without an element [remove_filter] does nothing and returns
    normally; with one it asks the player to remove it, after which the
    element is no longer in the filter chain and the handle is [None]. *)
Theorem remove_filter_detaches (s : State) :
  (pitch_element (self s) = None -> remove_filter s = (Returns tt, s)) /\
  (forall e, pitch_element (self s) = Some e ->
     let s' := exec remove_filter s in
     outcome remove_filter s = Returns tt /\
     pitch_element (self s') = None /\
     filters (host s') = List.remove Nat.eq_dec e (filters (host s)) /\
     ~ In e (filters (host s')) /\
     trace s' = trace s ++ [EvPlayerRemoveFilter e]).
Proof.
  split; [apply remove_filter_absent |].
  intros e Hh. unfold exec, outcome. rewrite (remove_filter_present s e Hh). cbn.
  repeat split. apply List.remove_In.
Qed.

(** ** Activation and deactivation *)

Lemma add_filter_returns s :
  (pitch_element (self s) = None -> gst_has_pitch (host s) = true) ->
  outcome add_filter s = Returns tt.
Proof.
  intros Hcan. unfold outcome. destruct (pitch_element (self s)) as [e |] eqn:Hh.
  - rewrite (add_filter_present s e Hh). reflexivity.
  - rewrite (add_filter_available s Hh (Hcan eq_refl)). reflexivity.
Qed.

(** The prologue of [do_activate] ends as its [add_filter] does: it
    returns when the host can make the element and raises when it cannot. *)
Lemma activate_prologue_available s :
  gst_has_pitch (host s) = true -> outcome activate_prologue s = Returns tt.
Proof.
  intros Hg. unfold activate_prologue. unfold outcome. run.
  apply add_filter_returns. intros _. exact Hg.
Qed.

Lemma activate_prologue_unavailable s :
  gst_has_pitch (host s) = false ->
  outcome activate_prologue s = Raises no_warning_attribute.
Proof.
  intros Hg. unfold activate_prologue. unfold outcome. run.
  rewrite add_filter_unavailable by (try reflexivity; exact Hg). reflexivity.
Qed.

Lemma do_activate_unfold s :
  gst_has_pitch (host s) = true ->
  do_activate s =
  try_except activate_ui (fun e => GLib_warning (activate_failed_warning e))
    (exec activate_prologue s).
Proof.
  intros Hg. pose proof (activate_prologue_available s Hg) as Hr.
  unfold do_activate, exec, outcome, activate_prologue in *. revert Hr. run.
  destruct (add_filter _) as [[[] | e] s1]; cbn; [reflexivity | discriminate].
Qed.

Lemma do_activate_unavailable s :
  gst_has_pitch (host s) = false ->
  do_activate s = (Raises no_warning_attribute, exec activate_prologue s).
Proof.
  intros Hg. pose proof (activate_prologue_unavailable s Hg) as Hr.
  unfold do_activate, exec, outcome, activate_prologue in *. revert Hr. run.
  destruct (add_filter _) as [[[] | e] s1]; cbn; [discriminate |].
  intros Heq. injection Heq as ->. reflexivity.
Qed.

(** The prologue leaves the window, the guarded calls and the widget
    counter as they were, and clears the toolbox handle. *)
Lemma activate_prologue_frame s :
  let s1 := exec activate_prologue s in
  window (host s1) = window (host s) /\
  raises (host s1) = raises (host s) /\
  next_widget (host s1) = next_widget (host s) /\
  toolbox (self s1) = None /\
  same_adjustments (self s1) (self s).
Proof.
  unfold activate_prologue, exec. run.
  set (s0 := {| self := _; host := _; trace := _ |}).
  assert (Hh : pitch_element (self s0) = None) by reflexivity.
  destruct (gst_has_pitch (host s0)) eqn:Hg.
  - rewrite (add_filter_available s0 Hh Hg). cbn. repeat split.
  - rewrite (add_filter_unavailable s0 Hh Hg). cbn. repeat split.
Qed.

Lemma activate_prologue_make_attempts s :
  make_attempts (trace (exec activate_prologue s)) = S (make_attempts (trace s)).
Proof.
  unfold activate_prologue, exec. run.
  set (s0 := {| self := _; host := _; trace := _ |}).
  assert (Hh : pitch_element (self s0) = None) by reflexivity.
  destruct (gst_has_pitch (host s0)) eqn:Hg.
  - rewrite (add_filter_available s0 Hh Hg). cbn [snd trace]. subst s0. cbn [trace].
    rewrite !make_attempts_app. cbn. lia.
  - rewrite (add_filter_unavailable s0 Hh Hg). cbn [snd trace]. subst s0. cbn [trace].
    rewrite !make_attempts_app. cbn. lia.
Qed.

Lemma remove_filter_post s :
  outcome remove_filter s = Returns tt /\
  toolbox (self (exec remove_filter s)) = toolbox (self s).
Proof.
  unfold outcome, exec. destruct (pitch_element (self s)) as [e |] eqn:Hh.
  - rewrite (remove_filter_present s e Hh). split; reflexivity.
  - rewrite (remove_filter_absent s Hh). split; reflexivity.
Qed.

(** [do_deactivate] ends as its guarded teardown does: when that returns,
    the handles are cleared; when the handler of the [try] raises, the
    method stops there. *)
Lemma do_deactivate_unfold s :
  let s1 := exec remove_filter s in
  let s2 := exec (deactivate_teardown (toolbox (self s))) s1 in
  do_deactivate s =
  match outcome (deactivate_teardown (toolbox (self s))) s1 with
  | Returns _ =>
      (Returns tt,
       {| self := with_pitch_element None (with_toolbox None (self s2));
          host := host s2; trace := trace s2 |})
  | Raises e => (Raises e, s2)
  end.
Proof.
  destruct (remove_filter_post s) as (Hr & Ht).
  cbv zeta. unfold do_deactivate.
  rewrite (bind_returns _ _ _ _ Hr). unfold bind at 1. unfold get_self at 1.
  rewrite Ht.
  match goal with
  | |- _ = ?rhs =>
      change (bind (deactivate_teardown (toolbox (self s)))
                (fun _ => bind (set_toolbox None) (fun _ => set_pitch_element None))
                (exec remove_filter s) = rhs)
  end.
  change (exec (deactivate_teardown (toolbox (self s))) (exec remove_filter s))
    with (snd (deactivate_teardown (toolbox (self s)) (exec remove_filter s))).
  unfold bind at 1, outcome.
  destruct (deactivate_teardown _ _) as [[[] | e] s2]; reflexivity.
Qed.

#[local] Arguments create_toolbox : simpl never.

Lemma create_toolbox_builds s :
  raises (host s) GtkConstruct = None ->
  exists item n,
    create_toolbox s =
    (Returns item,
     {| self := fresh_adjustments (self s);
        host := with_next_widget n (host s);
        trace := trace s |}).
Proof.
  intros Hc. unfold create_toolbox, create_slider_widget, gtk_button, create_adj, gtk_new.
  repeat (run; rewrite ?Hc).
  eexists _, _. reflexivity.
Qed.

Lemma create_toolbox_raises s e :
  raises (host s) GtkConstruct = Some e -> create_toolbox s = (Raises e, s).
Proof.
  intros Hc. unfold create_toolbox, create_adj. run. rewrite Hc. reflexivity.
Qed.

Lemma activate_prologue_filter s :
  let s1 := exec activate_prologue s in
  forall e, pitch_element (self s1) = Some e ->
            elements (host s1) !! e = Some gst_pitch_defaults.
Proof.
  unfold activate_prologue, exec. run.
  set (s0 := {| self := _; host := _; trace := _ |}).
  assert (Hh : pitch_element (self s0) = None) by reflexivity.
  destruct (gst_has_pitch (host s0)) eqn:Hg.
  - rewrite (add_filter_available s0 Hh Hg). cbn.
    intros e He. injection He as <-. apply lookup_insert_eq.
  - rewrite (add_filter_unavailable s0 Hh Hg). cbn. discriminate.
Qed.

Lemma fresh_adjustments_inv (s : State) :
  same_adjustments (self s) (fresh_adjustments (self s)) ->
  (forall e, pitch_element (self s) = Some e ->
             elements (host s) !! e = Some gst_pitch_defaults) ->
  plugin_inv s.
Proof.
  intros Hsame Hel.
  pose proof (same_adjustments_adj_of _ _ Hsame) as Hadj.
  split; [| split].
  - intros k. rewrite Hadj. destruct k; reflexivity.
  - intros k. rewrite Hadj. destruct k; cbn; lra.
  - intros e He. exists gst_pitch_defaults. split; [apply Hel, He | now left].
Qed.

(** An activation returns normally only when the host can make the
    element, the window can be reached and holds the toolbar, and the
    toolkit builds the widgets: every other path ends in a call of
    [GLib.warning]. *)
Lemma do_activate_returns_inv s :
  outcome do_activate s = Returns tt ->
  gst_has_pitch (host s) = true /\ ui_available s.
Proof.
  intros Hret. destruct (gst_has_pitch (host s)) eqn:Hg.
  - split; [reflexivity |].
    unfold outcome in Hret. rewrite (do_activate_unfold s Hg) in Hret.
    destruct (activate_prologue_frame s) as (Hw & Hr & _).
    cbv zeta in *. generalize dependent (exec activate_prologue s). intros s1 Hret Hw Hr.
    revert Hret. unfold try_except, activate_ui, get_toolbar. run. rewrite Hr.
    destruct (raises (host s) ShellWindow) as [e |] eqn:Hwin; run; [discriminate |].
    rewrite Hw.
    destruct (find_widget_by_name (window (host s)) "main-toolbar") as [tb |] eqn:Htb; run;
      [| discriminate].
    destruct (raises (host s) GtkConstruct) as [e |] eqn:Hc.
    + rewrite (create_toolbox_raises s1 e) by (rewrite Hr; exact Hc). run. discriminate.
    + intros _. split; [exact Hwin |]. split; [exact Hc |]. rewrite Htb. eauto.
  - unfold outcome in Hret. rewrite (do_activate_unavailable s Hg) in Hret. discriminate.
Qed.

(** Activation in a host that has the element, whose toolbar can be
    found and whose toolkit builds the widgets leaves the plugin with new
    adjustments and a new element. *)
Lemma do_activate_fresh s :
  gst_has_pitch (host s) = true ->
  ui_available s ->
  let s' := exec do_activate s in
  same_adjustments (self s') (fresh_adjustments (self s')) /\
  (forall e, pitch_element (self s') = Some e ->
             elements (host s') !! e = Some gst_pitch_defaults).
Proof.
  intros Hg (Hwin & Hcons & [tb Htb]).
  cbv zeta. unfold exec. rewrite (do_activate_unfold s Hg).
  destruct (activate_prologue_frame s) as (Hw & Hr & _ & _ & _).
  pose proof (activate_prologue_filter s) as Hel.
  cbv zeta in *. generalize dependent (exec activate_prologue s). intros s1 Hw Hr Hel.
  destruct (create_toolbox_builds s1) as (item & n & Hbuild); [rewrite Hr; exact Hcons |].
  unfold try_except, activate_ui, get_toolbar. run.
  rewrite Hr, Hwin. run. rewrite Hw, Htb. rewrite Hbuild. run.
  unfold toolbar_insert. run. rewrite Hr.
  destruct (raises (host s) ToolbarInsert) as [e |]; run;
    [| destruct tb as [| t bn [cs |]]; run];
    (split; [repeat split | exact Hel]).
Qed.

Lemma do_activate_inv s :
  outcome do_activate s = Returns tt -> plugin_inv (exec do_activate s).
Proof.
  intros Hret. destruct (do_activate_returns_inv s Hret) as (Hg & Hui).
  destruct (do_activate_fresh s Hg Hui) as (Hsame & Hel).
  apply fresh_adjustments_inv; assumption.
Qed.

Lemma host_sets_pitch_inv b s : plugin_inv s -> plugin_inv (host_sets_pitch b s).
Proof. intros H. exact H. Qed.

(** The guarded UI part of [do_activate] calls no element factory. *)
Lemma activate_ui_guarded_make_attempts s :
  make_attempts
    (trace (exec (try_except activate_ui
                    (fun e => GLib_warning (activate_failed_warning e))) s)) =
  make_attempts (trace s).
Proof.
  unfold exec, try_except, activate_ui, get_toolbar. run.
  destruct (raises (host s) ShellWindow) as [e |] eqn:Hwin; run; [reflexivity |].
  destruct (find_widget_by_name (window (host s)) "main-toolbar") as [tb |]; run;
    [| reflexivity].
  destruct (raises (host s) GtkConstruct) as [e |] eqn:Hc.
  - rewrite (create_toolbox_raises s e Hc). run. reflexivity.
  - destruct (create_toolbox_builds s Hc) as (item & n & ->). run.
    unfold toolbar_insert. run.
    destruct (raises (host s) ToolbarInsert) as [e |]; run;
      [| destruct tb as [| t bn [cs |]]; run]; try reflexivity.
    unfold make_attempts. rewrite List.filter_app, List.length_app. cbn. lia.
Qed.

(** Every activation calls the element factory exactly once. *)
Lemma do_activate_make_attempts s :
  make_attempts (trace (exec do_activate s)) = S (make_attempts (trace s)).
Proof.
  destruct (gst_has_pitch (host s)) eqn:Hg.
  - assert (Hex : exec do_activate s =
                  exec (try_except activate_ui
                          (fun e => GLib_warning (activate_failed_warning e)))
                    (exec activate_prologue s))
      by (unfold exec at 1; rewrite (do_activate_unfold s Hg); reflexivity).
    rewrite Hex, activate_ui_guarded_make_attempts.
    apply activate_prologue_make_attempts.
  - unfold exec at 1. rewrite (do_activate_unavailable s Hg). cbn [snd].
    apply activate_prologue_make_attempts.
Qed.

(** C4, as the code has it.  A failed creation is not repeated inside the
    call that failed and inserts nothing, but it is tried again later:
    every call of [add_filter] that finds the handle empty calls the factory
    once more.  Each run of the handler makes such a call, and so does each
    new activation; the run leaves handle, chain and elements as they were
    if the element is still missing, and creates and inserts the element if
    the host has it by then. *)
Theorem creation_retried_by_each_handler_run (s : State) (k : adj_id) :
  pitch_element (self s) = None ->
  let s' := exec (property_changed k) s in
  make_attempts (trace (exec add_filter s)) = S (make_attempts (trace s)) /\
  make_attempts (trace s') = S (make_attempts (trace s)) /\
  make_attempts (trace (exec do_activate s)) = S (make_attempts (trace s)) /\
  (gst_has_pitch (host s) = false ->
     pitch_element (self s') = None /\
     filters (host s') = filters (host s) /\
     elements (host s') = elements (host s)) /\
  (gst_has_pitch (host s) = true ->
     pitch_element (self s') = Some (next_element (host s)) /\
     filters (host s') = filters (host s) ++ [next_element (host s)]).
Proof.
  intros Hh s'. subst s'.
  split; [| split; [| split; [apply do_activate_make_attempts |]]];
    unfold exec; destruct (gst_has_pitch (host s)) eqn:Hg.
  - rewrite (add_filter_available s Hh Hg). cbn [snd trace].
    rewrite make_attempts_app. cbn. lia.
  - rewrite (add_filter_unavailable s Hh Hg). cbn [snd trace].
    rewrite make_attempts_app. cbn. lia.
  - rewrite (property_changed_available s k Hh Hg). cbn [snd trace].
    rewrite make_attempts_app. cbn. lia.
  - rewrite (property_changed_unavailable s k Hh Hg). cbn [snd trace].
    rewrite make_attempts_app. cbn. lia.
  - rewrite (property_changed_available s k Hh Hg). cbn [snd self host].
    split; [discriminate | intros _; split; reflexivity].
  - rewrite (property_changed_unavailable s k Hh Hg). cbn [snd self host].
    split; [intros _; repeat split; exact Hh | discriminate].
Qed.

(** ** The running plugin *)

(** The invariant holds in every state of the running plugin. *)
Lemma running_plugin_inv s : running s -> plugin_inv s.
Proof.
  induction 1 as [s Hret | s a _ IH | s b _ IH].
  - apply do_activate_inv. exact Hret.
  - destruct a as [k v |]; [apply adj_set_value_inv | apply reset_inv]; exact IH.
  - apply host_sets_pitch_inv. exact IH.
Qed.

Lemma bounds_of_ordered k : (fst (bounds_of k) <= snd (bounds_of k))%R.
Proof. destruct k; cbn; lra. Qed.

Lemma clamp_value_within a v :
  (lower a <= upper a - page_size a)%R ->
  (lower a <= clamp_value a v <= upper a - page_size a)%R.
Proof.
  intros H. unfold clamp_value. split.
  - apply Rmax_l.
  - apply Rmax_lub; [exact H | apply Rmin_r].
Qed.

Lemma adj_set_value_within_bounds s k v :
  adjs_wired s -> within_bounds (self s) ->
  within_bounds (self (exec (adj_set_value k v) s)).
Proof.
  intros (Hw & _ & Hv) Hb.
  destruct (adj_set_value_post s k v Hv (Hw k)) as (_ & Hk & Hother & _).
  cbv zeta in *. intros k'.
  destruct (decide (k = k')) as [<- | Hne].
  - rewrite Hk. destruct (Hb k) as (Hlo & Hup & Hps & _). cbn.
    repeat split; try assumption;
      pose proof (clamp_value_within (adj_of k (self s)) v) as Hc;
      pose proof (bounds_of_ordered k); rewrite Hlo, Hup, Hps in Hc; lra.
  - rewrite (Hother _ Hne). apply Hb.
Qed.

Lemma do_activate_within_bounds s :
  outcome do_activate s = Returns tt -> within_bounds (self (exec do_activate s)).
Proof.
  intros Hret. destruct (do_activate_returns_inv s Hret) as (Hg & Hui).
  destruct (do_activate_fresh s Hg Hui) as (Hsame & _).
  intros k. rewrite (same_adjustments_adj_of _ _ Hsame).
  destruct k; cbn; repeat split; lra.
Qed.

Lemma reset_within_bounds s :
  adjs_wired s -> within_bounds (self s) -> within_bounds (self (exec reset s)).
Proof.
  intros H0 Hb. unfold exec at 1. rewrite (reset_unfold s H0). cbn [snd].
  destruct (adj_set_value_wired s TempoAdj 0 H0) as (_ & H1).
  destruct (adj_set_value_wired _ PitchAdj 0 H1) as (_ & H2).
  apply adj_set_value_within_bounds; [exact H2 |].
  apply adj_set_value_within_bounds; [exact H1 |].
  apply adj_set_value_within_bounds; assumption.
Qed.

(** In every state of the running plugin the adjustments hold values in
    the ranges [create_toolbox] gave them: the premise of the bounds on the
    filter properties. *)
Lemma running_within_bounds s : running s -> within_bounds (self s).
Proof.
  induction 1 as [s Hret | s a Hrun IH | s b _ IH].
  - apply do_activate_within_bounds. exact Hret.
  - pose proof (plugin_inv_adjs_wired _ (running_plugin_inv _ Hrun)) as Hw.
    destruct a as [k v |].
    + apply adj_set_value_within_bounds; assumption.
    + apply reset_within_bounds; assumption.
  - exact IH.
Qed.

(** ** The statements at the example states *)

(** C4, refuted as worded.  In a host without the element, an activation
    calls the factory once and fails; a second activation calls it a second
    time, and if the host has gained the element by then, creates element 0
    and inserts it into the filter chain.  The same holds of two runs of the
    handler that find the handle empty. *)
Lemma creation_retried_after_failed_activation :
  let s1 := exec do_activate state_without_pitch in
  pitch_element (self s1) = None /\
  make_attempts (trace s1) = 1%nat /\
  make_attempts (trace (exec do_activate s1)) = 2%nat /\
  (let s2 := exec do_activate (host_sets_pitch true s1) in
   pitch_element (self s2) = Some 0%nat /\
   filters (host s2) = [0%nat]) /\
  let r1 := exec (property_changed TempoAdj) state_without_pitch in
  pitch_element (self r1) = None /\
  make_attempts (trace r1) = 1%nat /\
  make_attempts (trace (exec (property_changed PitchAdj) r1)) = 2%nat /\
  let r2 := exec (property_changed PitchAdj) (host_sets_pitch true r1) in
  pitch_element (self r2) = Some 0%nat /\
  filters (host r2) = [0%nat].
Proof.
  cbv zeta. repeat split.
Qed.

(** The busy plugin satisfies the invariant. *)
Lemma busy_state_inv : plugin_inv busy_state.
Proof.
  split; [exact busy_wired |]. split; [exact busy_zero_in_range |].
  intros e He. injection He as <-.
  exists (derived busy_plugin). split; [apply lookup_singleton_eq | now right].
Defined.

Lemma busy_state_wired : adjs_wired busy_state.
Proof.
  split; [exact busy_wired |]. split; [exact busy_zero_in_range |].
  intros e He. injection He as <-.
  exists (derived busy_plugin). apply lookup_singleton_eq.
Defined.

(** The handler on the busy plugin: tempo 1.1, pitch 2^(3/12), rate 1.2. *)
Lemma property_changed_formulas_busy :
  elements (host (exec (property_changed PitchAdj) busy_state)) !! 7%nat =
  Some {| tempo := 10 * 0.01 + 1.0; pitch := Rpower 2.0 (3 / 12.0);
          rate := 20 * 0.01 + 1.0 |}.
Proof.
  refine (proj1 (proj2
    (property_changed_formulas busy_state 7 (derived busy_plugin) PitchAdj
       eq_refl _ _ _ _))).
  - apply lookup_singleton_eq.
  - cbn. lra.
  - cbn. lra.
  - cbn. lra.
Defined.

(** [reset] on the busy plugin. *)
Lemma reset_restores_neutral_busy :
  value (tempo_adj (self (exec reset busy_state))) = 0%R /\
  elements (host (exec reset busy_state)) !! 7%nat = Some neutral.
Proof.
  destruct (reset_restores_neutral busy_state busy_state_inv)
    as (_ & Ht & _ & _ & _ & Hel).
  split; [exact Ht |]. apply Hel.
  unfold exec. rewrite (reset_present busy_state 7 busy_wired busy_zero_in_range eq_refl).
  cbn [snd]. rewrite !zeroed_pitch_element. reflexivity.
Defined.

(** [reset] on the busy plugin runs the handler three times. *)
Lemma reset_runs_handler_busy :
  handler_runs (trace (exec reset busy_state)) = 3%nat.
Proof.
  destruct (reset_runs_handler_per_changed_adjustment busy_state busy_state_wired)
    as (_ & Hruns & _).
  rewrite Hruns. cbn. unfold nonzero.
  destruct (Req_dec_T 10 0); [lra |].
  destruct (Req_dec_T 3 0); [lra |].
  destruct (Req_dec_T 20 0); [lra | reflexivity].
Defined.

(** A handler run in a host without the element: one factory call, the
    handle still empty. *)
Lemma creation_retried_without_pitch :
  make_attempts (trace (exec (property_changed SpeedAdj) state_without_pitch)) = 1%nat /\
  pitch_element (self (exec (property_changed SpeedAdj) state_without_pitch)) = None.
Proof.
  destruct (creation_retried_by_each_handler_run state_without_pitch SpeedAdj eq_refl)
    as (_ & Hn & _ & Hfail & _).
  split; [exact Hn |]. apply (Hfail eq_refl).
Defined.

(** C5, at the failing input.  With no element and a host that cannot
    make one, [add_filter] does not return: after the failed factory call
    the call of [GLib.warning] at line 184 raises [AttributeError], nothing
    is logged, and a run of the handler from there ends with the same
    exception. *)
Lemma add_filter_unavailable_raises :
  add_filter state_without_pitch =
    (Raises no_warning_attribute,
     {| self := fresh_plugin; host := rhythmbox false rhythmbox_window;
        trace := [EvElementFactoryMake None] |}) /\
  property_changed TempoAdj state_without_pitch =
    (Raises no_warning_attribute,
     {| self := fresh_plugin; host := rhythmbox false rhythmbox_window;
        trace := [EvPropertyChanged TempoAdj; EvElementFactoryMake None] |}).
Proof.
  split.
  - exact (add_filter_unavailable state_without_pitch eq_refl eq_refl).
  - exact (property_changed_unavailable state_without_pitch TempoAdj eq_refl eq_refl).
Qed.

(** [add_filter] on the busy plugin. *)
Lemma add_filter_present_busy : add_filter busy_state = (Returns tt, busy_state).
Proof. exact (proj1 (add_filter_present_is_noop busy_state 7 eq_refl)). Defined.

(** [remove_filter] on the busy plugin, and on one without element. *)
Lemma remove_filter_detaches_busy :
  pitch_element (self (exec remove_filter busy_state)) = None /\
  filters (host (exec remove_filter busy_state)) = [] /\
  remove_filter state_without_pitch = (Returns tt, state_without_pitch).
Proof.
  destruct (proj2 (remove_filter_detaches busy_state) 7%nat eq_refl)
    as (_ & Hh & Hf & _).
  split; [exact Hh |]. split; [rewrite Hf; reflexivity |].
  exact (proj1 (remove_filter_detaches state_without_pitch) eq_refl).
Defined.

(** C8, at the failing input.  In a window without toolbar [do_activate]
    does not return: the call of [GLib.warning] at line 205 raises
    [AttributeError], the [except] clause catches it, and the call at line
    207 raises it again, out of the method.  Nothing is logged; the element
    made at line 197 stays in the filter chain.  An exception of the UI
    attachment itself (here [insert] on a toolbar that is no container)
    ends the same way. *)
Lemma do_activate_without_toolbar_raises :
  outcome do_activate state_without_toolbar = Raises no_warning_attribute /\
  trace (exec do_activate state_without_toolbar) =
    [EvGstInit; EvElementFactoryMake (Some 0%nat); EvPlayerAddFilter 0] /\
  toolbox (self (exec do_activate state_without_toolbar)) = None /\
  filters (host (exec do_activate state_without_toolbar)) = [0%nat] /\
  outcome do_activate state_with_odd_toolbar = Raises no_warning_attribute /\
  trace (exec do_activate state_with_odd_toolbar) =
    [EvGstInit; EvElementFactoryMake (Some 0%nat); EvPlayerAddFilter 0].
Proof.
  repeat split.
Qed.

(** C9, at the failing input.  When the window has lost the toolbar, or
    when locating the toolbar raises, [do_deactivate] does not reach lines
    222-223: the call of [GLib.warning] in the [except] clause (line 220)
    raises [AttributeError] out of the method, after [remove_filter] and
    with the toolbox handle still set. *)
Lemma do_deactivate_with_failing_ui_raises :
  outcome do_deactivate state_with_toolbar_gone = Raises no_warning_attribute /\
  toolbox (self (exec do_deactivate state_with_toolbar_gone)) = Some toolbox_item /\
  trace (exec do_deactivate state_with_toolbar_gone) = [EvPlayerRemoveFilter 7] /\
  outcome do_deactivate state_with_failing_ui = Raises no_warning_attribute /\
  toolbox (self (exec do_deactivate state_with_failing_ui)) = Some toolbox_item /\
  pitch_element (self (exec do_deactivate state_with_failing_ui)) = None /\
  trace (exec do_deactivate state_with_failing_ui) = [EvPlayerRemoveFilter 7].
Proof.
  repeat split.
Qed.

(** The search in the example windows. *)
Lemma find_main_toolbar_in_rhythmbox_window :
  find_widget_by_name rhythmbox_window "main-toolbar" =
    Some (GtkWidget 2 (Some "main-toolbar"%string)
            (Some [GtkWidget 3 (Some "play-button"%string) None;
                   GtkWidget 4 (Some "song-info"%string) None])) /\
  find_widget_by_name PyOther "main-toolbar" = None /\
  find_widget_by_name bare_window "main-toolbar" = None.
Proof.
  split; [| split].
  - rewrite (proj1 (find_widget_by_name_first_in_preorder rhythmbox_window "main-toolbar")).
    reflexivity.
  - exact (proj1 (proj2 (find_widget_by_name_first_in_preorder PyOther "main-toolbar"))
             eq_refl).
  - apply (proj1 (proj2 (proj2
             (find_widget_by_name_first_in_preorder bare_window "main-toolbar")))).
    intros w Hw. cbn in Hw.
    destruct Hw as [<- | [<- | []]]; reflexivity.
Defined.

(** ** Further properties: the filter follows the sliders *)

Lemma adj_set_value_cases s k v :
  handlers (adj_of k (self s)) = [CbPropertyChanged] ->
  let a := adj_of k (self s) in
  (clamp_value a v = value a /\ adj_set_value k v s = (Returns tt, s)) \/
  (clamp_value a v <> value a /\
   adj_set_value k v s =
   run_callback k CbPropertyChanged (store_adj k (with_value (clamp_value a v) a) s)).
Proof.
  intros Hw a.
  destruct (Req_dec_T (clamp_value a v) (value a)) as [Heq | Hne].
  - left. split; [exact Heq | exact (adj_set_value_same _ _ _ Heq)].
  - right. split; [exact Hne | exact (adj_set_value_changed _ _ _ Hne Hw)].
Qed.

Lemma run_callback_attached s k :
  attached s -> attached (exec (run_callback k CbPropertyChanged) s).
Proof.
  intros Ha. unfold exec, attached.
  destruct (pitch_element (self s)) as [e |] eqn:Hh.
  - rewrite (run_callback_present _ _ _ Hh), (property_changed_present _ _ _ Hh). cbn.
    intros e' He'. apply Ha. congruence.
  - destruct (gst_has_pitch (host s)) eqn:Hg.
    + rewrite (run_callback_available _ _ Hh Hg), (property_changed_available _ _ Hh Hg). cbn.
      intros e' He'. injection He' as <-. apply in_or_app. right. now left.
    + rewrite (run_callback_unavailable _ _ Hh Hg). cbn. intros e' He'. congruence.
Qed.

Lemma adj_set_value_attached s k v :
  wired (self s) -> attached s -> attached (exec (adj_set_value k v) s).
Proof.
  intros Hw Ha. unfold exec.
  destruct (adj_set_value_cases s k v (Hw k)) as [(_ & ->) | (_ & ->)]; [exact Ha |].
  apply run_callback_attached.
  intros e He. apply Ha. destruct k; exact He.
Qed.

Lemma adj_set_value_synced s k v :
  adjs_wired s -> synced s -> synced (exec (adj_set_value k v) s).
Proof.
  intros (Hw & _ & Hv) Hs.
  destruct (adj_set_value_post s k v Hv (Hw k)) as (_ & Hk & Hother & _ & _ & _ & Hsync).
  cbv zeta in *. intros e He.
  destruct (Hsync e He) as [Hnew | (Heq & Hold & Hel)]; [exact Hnew |].
  rewrite Hel, (Hs e Hold). f_equal. symmetry.
  apply derived_adj_of. intros k'.
  destruct (decide (k = k')) as [<- | Hne].
  - rewrite Hk, Heq. apply with_value_same.
  - apply Hother. exact Hne.
Qed.

Lemma reset_synced s : adjs_wired s -> synced s -> synced (exec reset s).
Proof.
  intros H0 Hs. unfold exec at 1. rewrite (reset_unfold s H0). cbn [snd].
  destruct (adj_set_value_wired s TempoAdj 0 H0) as (_ & H1).
  destruct (adj_set_value_wired _ PitchAdj 0 H1) as (_ & H2).
  apply adj_set_value_synced; [exact H2 |].
  apply adj_set_value_synced; [exact H1 |].
  apply adj_set_value_synced; assumption.
Qed.

Lemma reset_attached s : adjs_wired s -> attached s -> attached (exec reset s).
Proof.
  intros H0 Ha. unfold exec at 1. rewrite (reset_unfold s H0). cbn [snd].
  destruct (adj_set_value_wired s TempoAdj 0 H0) as (_ & H1).
  destruct (adj_set_value_wired _ PitchAdj 0 H1) as (_ & H2).
  destruct H0 as (W0 & _). destruct H1 as (W1 & _). destruct H2 as (W2 & _).
  apply adj_set_value_attached; [exact W2 |].
  apply adj_set_value_attached; [exact W1 |].
  apply adj_set_value_attached; assumption.
Qed.

Lemma derived_fresh_adjustments p : derived (fresh_adjustments p) = gst_pitch_defaults.
Proof. apply derived_zero; reflexivity. Qed.

Lemma do_activate_synced s :
  outcome do_activate s = Returns tt -> synced (exec do_activate s).
Proof.
  intros Hret. destruct (do_activate_returns_inv s Hret) as (Hg & Hui).
  destruct (do_activate_fresh s Hg Hui) as (Hsame & Hel).
  intros e He. rewrite (Hel e He), (derived_same _ _ Hsame), derived_fresh_adjustments.
  reflexivity.
Qed.

(** ** Further properties: activation and the filter chain *)

(** The guarded UI part of [do_activate] leaves the pipeline alone,
    however it ends. *)
Lemma activate_ui_guarded_pipeline s :
  pipeline_untouched s
    (exec (try_except activate_ui (fun e => GLib_warning (activate_failed_warning e))) s).
Proof.
  unfold exec, try_except, activate_ui, get_toolbar. run.
  destruct (raises (host s) ShellWindow) as [e |] eqn:Hwin; run;
    [repeat split |].
  destruct (find_widget_by_name (window (host s)) "main-toolbar") as [tb |]; run;
    [| repeat split].
  destruct (raises (host s) GtkConstruct) as [e |] eqn:Hc.
  - rewrite (create_toolbox_raises s e Hc). run. repeat split.
  - destruct (create_toolbox_builds s Hc) as (item & n & ->). run.
    unfold toolbar_insert. run.
    destruct (raises (host s) ToolbarInsert) as [e |]; run;
      [| destruct tb as [| t bn [cs |]]; run];
      (split; [destruct (self s); reflexivity | repeat split]).
Qed.

Lemma activate_prologue_pipeline s :
  let s1 := exec activate_prologue s in
  let n := next_element (host s) in
  if gst_has_pitch (host s) then
    pitch_element (self s1) = Some n /\
    filters (host s1) = filters (host s) ++ [n] /\
    elements (host s1) = <[n := gst_pitch_defaults]> (elements (host s))
  else
    pitch_element (self s1) = None /\
    filters (host s1) = filters (host s) /\
    elements (host s1) = elements (host s).
Proof.
  unfold activate_prologue, exec. run.
  set (s0 := {| self := _; host := _; trace := _ |}).
  assert (Hh : pitch_element (self s0) = None) by reflexivity.
  destruct (gst_has_pitch (host s)) eqn:Hg.
  - rewrite (add_filter_available s0 Hh Hg). cbn. repeat split.
  - rewrite (add_filter_unavailable s0 Hh Hg). cbn. repeat split.
Qed.

Lemma do_activate_pipeline s :
  let s' := exec do_activate s in
  let n := next_element (host s) in
  if gst_has_pitch (host s) then
    pitch_element (self s') = Some n /\
    filters (host s') = filters (host s) ++ [n] /\
    elements (host s') = <[n := gst_pitch_defaults]> (elements (host s))
  else
    pitch_element (self s') = None /\
    filters (host s') = filters (host s) /\
    elements (host s') = elements (host s).
Proof.
  cbv zeta.
  pose proof (activate_prologue_pipeline s) as Hp. cbv zeta in Hp.
  destruct (gst_has_pitch (host s)) eqn:Hg.
  - assert (Hex : exec do_activate s =
                  exec (try_except activate_ui
                          (fun e => GLib_warning (activate_failed_warning e)))
                    (exec activate_prologue s))
      by (unfold exec at 1; rewrite (do_activate_unfold s Hg); reflexivity).
    rewrite Hex.
    destruct (activate_ui_guarded_pipeline (exec activate_prologue s))
      as (Hh & Hf & He & _).
    rewrite Hh, Hf, He. exact Hp.
  - assert (Hex : exec do_activate s = exec activate_prologue s)
      by (unfold exec at 1; rewrite (do_activate_unavailable s Hg); reflexivity).
    rewrite Hex. exact Hp.
Qed.

Lemma do_activate_attached s : attached (exec do_activate s).
Proof.
  pose proof (do_activate_pipeline s) as Hp. cbv zeta in Hp.
  intros e He. destruct (gst_has_pitch (host s)).
  - destruct Hp as (Hh & Hf & _). rewrite Hf. rewrite Hh in He. injection He as <-.
    apply in_or_app. right. now left.
  - destruct Hp as (Hh & _). congruence.
Qed.

Lemma running_synced s : running s -> synced s.
Proof.
  induction 1 as [s Hret | s a Hrun IH | s b _ IH].
  - apply do_activate_synced. exact Hret.
  - pose proof (plugin_inv_adjs_wired _ (running_plugin_inv _ Hrun)) as Hw.
    destruct a as [k v |]; [apply adj_set_value_synced | apply reset_synced]; assumption.
  - exact IH.
Qed.

Lemma running_attached s : running s -> attached s.
Proof.
  induction 1 as [s Hui | s a Hrun IH | s b _ IH].
  - apply do_activate_attached.
  - pose proof (plugin_inv_adjs_wired _ (running_plugin_inv _ Hrun)) as Hw.
    destruct a as [k v |].
    + apply adj_set_value_attached; [apply Hw | exact IH].
    + apply reset_attached; assumption.
  - exact IH.
Qed.

(** X1.  In every state of the running plugin the element the plugin
    holds is in the player's filter chain and carries exactly the
    properties the formulas give for the current values of the three
    adjustments. *)
Theorem running_filter_mirrors_adjustments (s : State) (e : nat) :
  running s ->
  pitch_element (self s) = Some e ->
  In e (filters (host s)) /\
  elements (host s) !! e =
    Some {| tempo := value (tempo_adj (self s)) * 0.01 + 1.0;
            pitch := Rpower 2.0 (value (pitch_adj (self s)) / 12.0);
            rate := value (speed_adj (self s)) * 0.01 + 1.0 |}.
Proof.
  intros Hrun He. split.
  - exact (running_attached s Hrun e He).
  - exact (running_synced s Hrun e He).
Qed.

(** X2.  In every state of the running plugin the adjustments are within
    the bounds [create_toolbox] gave them, and the element the plugin holds
    has tempo and rate in [0.5, 3.0] and pitch in [0.5, 2.0]. *)
Theorem running_filter_in_range (s : State) :
  running s ->
  (-50 <= value (tempo_adj (self s)) <= 200)%R /\
  (-12 <= value (pitch_adj (self s)) <= 12)%R /\
  (-50 <= value (speed_adj (self s)) <= 200)%R /\
  (forall e, pitch_element (self s) = Some e ->
     exists pr, elements (host s) !! e = Some pr /\
                (0.5 <= tempo pr <= 3.0)%R /\
                (0.5 <= pitch pr <= 2.0)%R /\
                (0.5 <= rate pr <= 3.0)%R).
Proof.
  intros Hrun.
  pose proof (running_within_bounds s Hrun) as Hb.
  destruct (Hb TempoAdj) as (_ & _ & _ & Ht).
  destruct (Hb PitchAdj) as (_ & _ & _ & Hp).
  destruct (Hb SpeedAdj) as (_ & _ & _ & Hr).
  cbn in Ht, Hp, Hr.
  split; [exact Ht |]. split; [exact Hp |]. split; [exact Hr |].
  intros e He. exists (derived (self s)).
  split; [exact (running_synced s Hrun e He) |].
  cbn. unfold tempo_of, rate_of.
  split; [lra |]. split; [exact (pitch_of_bounds _ Hp) | lra].
Qed.

Lemma run_callback_holds_element s k :
  gst_has_pitch (host s) = true ->
  is_Some (pitch_element (self (exec (run_callback k CbPropertyChanged) s))).
Proof.
  intros Hg. unfold exec.
  destruct (pitch_element (self s)) as [e |] eqn:Hh.
  - rewrite (run_callback_present _ _ _ Hh), (property_changed_present _ _ _ Hh). cbn.
    rewrite Hh. eauto.
  - rewrite (run_callback_available _ _ Hh Hg), (property_changed_available _ _ Hh Hg). cbn.
    eauto.
Qed.

(** X3.  Moving a slider of the running plugin stores the requested value
    clamped to the adjustment's bounds (the value itself when it is within
    them) and leaves the other two adjustments alone; afterwards the filter
    is again in sync, and if the value changed and the host has the
    element, the plugin holds an element in the filter chain. *)
Theorem slide_reaches_filter (s : State) (k : adj_id) (v : R) :
  running s ->
  let s' := exec (adj_set_value k v) s in
  let lo := fst (bounds_of k) in
  let hi := snd (bounds_of k) in
  value (adj_of k (self s')) = Rmax lo (Rmin v hi) /\
  ((lo <= v <= hi)%R -> value (adj_of k (self s')) = v) /\
  (forall k', k <> k' -> adj_of k' (self s') = adj_of k' (self s)) /\
  (forall e, pitch_element (self s') = Some e ->
     In e (filters (host s')) /\ elements (host s') !! e = Some (derived (self s'))) /\
  (value (adj_of k (self s')) <> value (adj_of k (self s)) ->
   gst_has_pitch (host s) = true ->
   is_Some (pitch_element (self s'))).
Proof.
  intros Hrun s' lo hi.
  pose proof (plugin_inv_adjs_wired _ (running_plugin_inv _ Hrun)) as (Hw & _ & Hv).
  destruct (running_within_bounds s Hrun k) as (Hlo & Hup & Hps & _).
  destruct (adj_set_value_post s k v Hv (Hw k)) as (_ & Hk & Hother & _).
  cbv zeta in Hk, Hother. fold s' in Hk, Hother.
  assert (Hval : value (adj_of k (self s')) = Rmax lo (Rmin v hi)).
  { rewrite Hk. cbn. unfold clamp_value. rewrite Hlo, Hup, Hps.
    subst lo hi. f_equal. f_equal. lra. }
  assert (Hrun' : running s') by exact (running_action s (Slide k v) Hrun).
  split; [exact Hval |]. split; [| split; [exact Hother | split]].
  - intros [H1 H2]. rewrite Hval.
    rewrite Rmin_left by exact H2. apply Rmax_right. exact H1.
  - intros e He. split;
      [exact (running_attached s' Hrun' e He) | exact (running_synced s' Hrun' e He)].
  - intros Hchg Hg. subst s'. unfold exec in *.
    destruct (adj_set_value_cases s k v (Hw k)) as [(_ & Hsame) | (_ & Hrunh)].
    + rewrite Hsame in Hchg. cbn in Hchg. contradiction.
    + rewrite Hrunh. apply run_callback_holds_element. exact Hg.
Qed.

(** X6.  [do_activate] forgets whatever element the plugin held and makes
    a new one when the host can: the new element, with the factory's
    default properties, is appended to the player's filter chain and
    nothing is ever taken out of the chain; when the host cannot, the chain
    and the elements stay as they were and the handle is [None].  This
    holds however the UI part of the activation ends. *)
Theorem do_activate_makes_new_element (s : State) :
  let s' := exec do_activate s in
  let n := next_element (host s) in
  (gst_has_pitch (host s) = true ->
     pitch_element (self s') = Some n /\
     filters (host s') = filters (host s) ++ [n] /\
     elements (host s') !! n = Some gst_pitch_defaults) /\
  (gst_has_pitch (host s) = false ->
     pitch_element (self s') = None /\
     filters (host s') = filters (host s) /\
     elements (host s') = elements (host s)) /\
  (forall e, In e (filters (host s)) -> In e (filters (host s'))).
Proof.
  cbv zeta. pose proof (do_activate_pipeline s) as Hp. cbv zeta in Hp.
  destruct (gst_has_pitch (host s)).
  - destruct Hp as (Hh & Hf & He). split; [| split].
    + intros _. split; [exact Hh |]. split; [exact Hf |].
      rewrite He. apply lookup_insert_eq.
    + discriminate.
    + intros e Hin. rewrite Hf. apply in_or_app. now left.
  - destruct Hp as (Hh & Hf & He). split; [| split].
    + discriminate.
    + intros _. auto.
    + intros e Hin. rewrite Hf. exact Hin.
Qed.

(** ** Further properties: how the operations compose *)

Lemma write_all_twice e p (m : gmap nat ElemProps) :
  write_all e p (write_all e p m) = write_all e p m.
Proof.
  apply map_eq. intros i. destruct (decide (e = i)) as [<- | Hne].
  - unfold write_all. rewrite !lookup_alter_eq.
    destruct (m !! e) as [pr |]; reflexivity.
  - rewrite !write_all_lookup_ne by exact Hne. reflexivity.
Qed.

(** X4.  With its element attached, a run of the handler makes no factory
    call and changes nothing but the three properties of that element: the
    plugin's attributes, the filter chain, the window and every other
    element stay as they were.  A second run right after it changes nothing
    at all in plugin and host. *)
Theorem property_changed_touches_only_its_element (s : State) (e : nat) (k k' : adj_id) :
  pitch_element (self s) = Some e ->
  let s1 := exec (property_changed k) s in
  let s2 := exec (property_changed k') s1 in
  self s1 = self s /\
  filters (host s1) = filters (host s) /\
  window (host s1) = window (host s) /\
  (forall e', e <> e' -> elements (host s1) !! e' = elements (host s) !! e') /\
  make_attempts (trace s1) = make_attempts (trace s) /\
  self s2 = self s1 /\
  host s2 = host s1.
Proof.
  intros Hh. cbv zeta. unfold exec.
  rewrite (property_changed_present s e k Hh). cbn [snd].
  rewrite (property_changed_present _ e k') by exact Hh.
  cbn [snd self host trace].
  split; [reflexivity |]. split; [reflexivity |]. split; [reflexivity |].
  split; [intros e' Hne; apply write_all_lookup_ne; exact Hne |].
  split; [rewrite make_attempts_app; cbn; lia |].
  split; [reflexivity |].
  unfold with_elements. cbn. rewrite write_all_twice. reflexivity.
Qed.

Lemma remove_app_fresh (e : nat) (l : list nat) :
  ~ In e l -> List.remove Nat.eq_dec e (l ++ [e]) = l.
Proof.
  intros Hnot. rewrite List.remove_app, (List.notin_remove Nat.eq_dec l e Hnot).
  cbn. destruct (Nat.eq_dec e e) as [_ | Hne]; [apply app_nil_r | contradiction].
Qed.

(** X5.  Attaching and then detaching gives the filter chain back: from a
    plugin without element, [add_filter] followed by [remove_filter] leaves
    the handle [None] and the player's chain and the window exactly as they
    were (the element the factory makes being a new one).  In a host that
    has the element the pair returns normally, having made one element,
    added it and removed it. *)
Theorem add_filter_then_remove_filter (s : State) :
  pitch_element (self s) = None ->
  ~ In (next_element (host s)) (filters (host s)) ->
  let s' := exec (add_filter ;; remove_filter)%method s in
  let n := next_element (host s) in
  pitch_element (self s') = None /\
  filters (host s') = filters (host s) /\
  window (host s') = window (host s) /\
  (gst_has_pitch (host s) = true ->
     outcome (add_filter ;; remove_filter)%method s = Returns tt /\
     trace s' = trace s ++ [EvElementFactoryMake (Some n); EvPlayerAddFilter n;
                            EvPlayerRemoveFilter n]).
Proof.
  intros Hh Hfresh. cbv zeta. unfold exec, outcome, bind.
  destruct (gst_has_pitch (host s)) eqn:Hg.
  - rewrite (add_filter_available s Hh Hg).
    rewrite (remove_filter_present _ (next_element (host s))) by reflexivity.
    cbn. rewrite (remove_app_fresh _ _ Hfresh), <- app_assoc.
    split; [reflexivity |]. split; [reflexivity |]. split; [reflexivity |].
    intros _. split; reflexivity.
  - rewrite (add_filter_unavailable s Hh Hg). cbn.
    split; [exact Hh |]. split; [reflexivity |]. split; [reflexivity |].
    discriminate.
Qed.

Lemma adj_set_value_zero_again s k :
  value (adj_of k (self s)) = 0%R ->
  (lower (adj_of k (self s)) <= 0
   <= upper (adj_of k (self s)) - page_size (adj_of k (self s)))%R ->
  adj_set_value k 0 s = (Returns tt, s).
Proof.
  intros Hz Hr. apply adj_set_value_same. rewrite (clamp_value_zero _ Hr). congruence.
Qed.

(** X10.  A reset right after a reset does nothing: the second call finds
    the three adjustments at 0, runs no handler and leaves plugin, host and
    trace exactly as the first one left them. *)
Theorem reset_twice (s : State) :
  adjs_wired s ->
  reset (exec reset s) = (Returns tt, exec reset s).
Proof.
  intros H0.
  destruct (reset_post s H0) as (_ & Ht & Hp & Hs & _). cbv zeta in Ht, Hp, Hs.
  assert (Hz : zero_in_range (self (exec reset s))).
  { unfold exec at 1. rewrite (reset_unfold s H0). cbn [snd].
    destruct (adj_set_value_wired s TempoAdj 0 H0) as (_ & H1).
    destruct (adj_set_value_wired _ PitchAdj 0 H1) as (_ & H2).
    destruct (adj_set_value_wired _ SpeedAdj 0 H2) as (_ & _ & H3 & _).
    exact H3. }
  generalize dependent (exec reset s). intros s' Ht Hp Hs Hz.
  unfold reset.
  unfold bind at 1. rewrite (adj_set_value_zero_again s' TempoAdj Ht (Hz _)).
  unfold bind at 1. rewrite (adj_set_value_zero_again s' PitchAdj Hp (Hz _)).
  exact (adj_set_value_zero_again s' SpeedAdj Hs (Hz _)).
Qed.

Lemma with_handles_cleared p :
  pitch_element p = None -> toolbox p = None ->
  with_pitch_element None (with_toolbox None p) = p.
Proof. destruct p; cbn; intros -> ->; reflexivity. Qed.

(** X11.  Deactivating twice is harmless: on the state that a
    [do_deactivate] which returned leaves, a second one calls neither the
    player nor the toolbar and changes nothing, not even the trace. *)
Theorem do_deactivate_twice (s : State) :
  outcome do_deactivate s = Returns tt ->
  do_deactivate (exec do_deactivate s) = (Returns tt, exec do_deactivate s).
Proof.
  intros Hret.
  pose proof (do_deactivate_unfold s) as Hun. cbv zeta in Hun.
  assert (Hcl : pitch_element (self (snd (do_deactivate s))) = None /\
                toolbox (self (snd (do_deactivate s))) = None).
  { unfold outcome in Hret. rewrite Hun in Hret |- *.
    destruct (outcome (deactivate_teardown _) _);
      [split; reflexivity | discriminate Hret]. }
  destruct Hcl as (Hh & Ht).
  change (snd (do_deactivate s)) with (exec do_deactivate s) in Hh, Ht.
  clear Hun Hret. generalize dependent (exec do_deactivate s). intros s' Hh Ht.
  pose proof (do_deactivate_unfold s') as Hun'. cbv zeta in Hun'.
  rewrite Hun'. unfold exec, outcome. rewrite (remove_filter_absent s' Hh), Ht. cbn.
  rewrite (with_handles_cleared _ Hh Ht). destruct s'; reflexivity.
Qed.

(** ** Further properties: the toolbox in the host window *)

Lemma create_toolbox_result s :
  raises (host s) GtkConstruct = None ->
  create_toolbox s =
  (Returns (toolbox_widgets (next_widget (host s))),
   {| self := fresh_adjustments (self s);
      host := with_next_widget (21 + next_widget (host s)) (host s);
      trace := trace s |}).
Proof.
  intros Hc. unfold create_toolbox, create_slider_widget, gtk_button, create_adj, gtk_new.
  repeat (run; rewrite ?Hc).
  reflexivity.
Qed.

Lemma find_in_children_app cs1 cs2 name :
  find_in_children (cs1 ++ cs2) name =
  match find_in_children cs1 name with
  | Some ans => Some ans
  | None => find_in_children cs2 name
  end.
Proof.
  induction cs1 as [| c cs1 IH]; [reflexivity |].
  rewrite <- app_comm_cons, !find_in_children_cons.
  destruct (find_widget_by_name c name); [reflexivity | exact IH].
Qed.

Lemma find_in_children_insert_at pos item cs name :
  find_widget_by_name item name = None ->
  find_in_children (insert_at pos item cs) name = find_in_children cs name.
Proof.
  intros Hitem. unfold insert_at.
  rewrite find_in_children_app, find_in_children_cons, Hitem, <- find_in_children_app.
  rewrite List.firstn_skipn. reflexivity.
Qed.

Lemma find_in_children_map (g : pyobj -> pyobj) cs name :
  Forall (fun c => find_widget_by_name (g c) name =
                   option_map g (find_widget_by_name c name)) cs ->
  find_in_children (List.map g cs) name = option_map g (find_in_children cs name).
Proof.
  induction 1 as [| c cs Hc _ IH]; [reflexivity |].
  cbn [List.map]. rewrite !find_in_children_cons, Hc.
  destruct (find_widget_by_name c name); [reflexivity | exact IH].
Qed.

Lemma map_container_container t f w bn cs :
  map_container t f (GtkWidget w bn (Some cs)) =
  GtkWidget w bn
    (Some (if Nat.eqb w t then f (List.map (map_container t f) cs)
           else List.map (map_container t f) cs)).
Proof. reflexivity. Qed.

(** A widget that no name search finds can be inserted into a toolbar
    without changing what a search in the window finds, up to the
    insertion itself. *)
Lemma find_after_insert t pos item name o :
  find_widget_by_name item name = None ->
  find_widget_by_name (map_container t (insert_at pos item) o) name =
  option_map (map_container t (insert_at pos item)) (find_widget_by_name o name).
Proof.
  intros Hitem.
  induction o as [| w bn | w bn cs IH] using pyobj_tree_ind.
  - reflexivity.
  - cbn. destruct (name_matches bn name); reflexivity.
  - rewrite map_container_container.
    rewrite !find_widget_by_name_container.
    destruct (name_matches bn name).
    + cbn [option_map]. rewrite map_container_container. reflexivity.
    + destruct (Nat.eqb w t).
      * rewrite (find_in_children_insert_at _ _ _ _ Hitem).
        apply find_in_children_map. exact IH.
      * apply find_in_children_map. exact IH.
Qed.

Lemma parent_in_container item w bn cs :
  parent_in item (GtkWidget w bn (Some cs)) =
  if List.existsb (is_item item) cs then Some (GtkWidget w bn (Some cs))
  else parent_in_children item cs.
Proof. reflexivity. Qed.

Lemma parent_in_children_cons item c cs :
  parent_in_children item (c :: cs) =
  match parent_in item c with
  | Some ans => Some ans
  | None => parent_in_children item cs
  end.
Proof. reflexivity. Qed.

Lemma parent_in_children_some item c cs :
  In c cs -> is_Some (parent_in item c) -> is_Some (parent_in_children item cs).
Proof.
  induction cs as [| c' cs IH]; intros Hin Hc; [destruct Hin |].
  rewrite parent_in_children_cons.
  destruct Hin as [-> | Hin].
  - destruct Hc as [p ->]. eauto.
  - destruct (parent_in item c'); [eauto | exact (IH Hin Hc)].
Qed.

Lemma existsb_insert_at pos item cs :
  is_item item item = true -> List.existsb (is_item item) (insert_at pos item cs) = true.
Proof.
  intros Hi. unfold insert_at. rewrite List.existsb_app. cbn. rewrite Hi.
  apply orb_true_iff. right. reflexivity.
Qed.

Lemma in_preorder_list tb cs :
  In tb (preorder_list cs) -> exists c, In c cs /\ In tb (preorder c).
Proof.
  induction cs as [| c cs IH]; intros Hin; [destruct Hin |].
  cbn in Hin. apply in_app_or in Hin. destruct Hin as [Hin | Hin].
  - exists c. split; [now left | exact Hin].
  - destruct (IH Hin) as (c' & Hc' & Htb). exists c'. split; [now right | exact Htb].
Qed.

(** After [insert] on the toolbar [t], the inserted widget has a parent
    in the window. *)
Lemma parent_after_insert t pos item bn cs o :
  is_item item item = true ->
  In (GtkWidget t bn (Some cs)) (preorder o) ->
  is_Some (parent_in item (map_container t (insert_at pos item) o)).
Proof.
  intros Hi.
  induction o as [| w bn' | w bn' cs' IH] using pyobj_tree_ind; intros Hin.
  - destruct Hin.
  - destruct Hin as [Heq | []]. discriminate Heq.
  - rewrite map_container_container, parent_in_container.
    rewrite preorder_container in Hin. destruct Hin as [Heq | Hin].
    + injection Heq as -> _ _. rewrite Nat.eqb_refl.
      rewrite (existsb_insert_at _ _ _ Hi). eauto.
    + destruct (Nat.eqb w t).
      * rewrite (existsb_insert_at _ _ _ Hi). eauto.
      * destruct (List.existsb _ _); [eauto |].
        destruct (in_preorder_list _ _ Hin) as (c & Hc & Htb).
        rewrite List.Forall_forall in IH.
        apply (parent_in_children_some item (map_container t (insert_at pos item) c));
          [apply List.in_map; exact Hc | exact (IH c Hc Htb)].
Qed.

Lemma is_item_map_container item t f :
  is_item item item = true -> is_item item (map_container t f item) = true.
Proof.
  destruct item as [| i bn [cs |]]; intros Hi; [discriminate | exact Hi | exact Hi].
Qed.

Lemma filter_insert_at (keep : pyobj -> bool) pos x l :
  keep x = false -> List.filter keep (insert_at pos x l) = List.filter keep l.
Proof.
  intros Hx. unfold insert_at. rewrite List.filter_app. cbn. rewrite Hx.
  rewrite <- List.filter_app, List.firstn_skipn. reflexivity.
Qed.

Lemma map_insert_at (g : pyobj -> pyobj) pos x l :
  List.map g (insert_at pos x l) = insert_at pos (g x) (List.map g l).
Proof.
  unfold insert_at. rewrite List.map_app. cbn.
  rewrite List.firstn_map, List.skipn_map. reflexivity.
Qed.

Lemma filter_all_kept (keep : pyobj -> bool) l :
  List.forallb keep l = true -> List.filter keep l = l.
Proof.
  induction l as [| a l IH]; [reflexivity |].
  cbn. intros H. apply andb_true_iff in H. destruct H as [Ha Hl].
  rewrite Ha, (IH Hl). reflexivity.
Qed.

Lemma ids_below_not_item n item o i bn ks :
  item = GtkWidget i bn ks -> n <= i ->
  ids_below n o = true -> negb (is_item item o) = true.
Proof.
  intros -> Hle Hb. destruct o as [| w bn' ks']; [reflexivity |].
  cbn in Hb. apply andb_true_iff in Hb. destruct Hb as [Hw _].
  apply Nat.ltb_lt in Hw. cbn. apply negb_true_iff. apply Nat.eqb_neq. lia.
Qed.

(** Removing a new widget from the toolbar it was inserted into gives the
    window back. *)
Lemma remove_after_insert t pos item i bn ks n o :
  item = GtkWidget i bn ks -> n <= i ->
  ids_below n o = true ->
  map_container t (removing item) (map_container t (insert_at pos item) o) = o.
Proof.
  intros Hitem Hle.
  assert (Hi : is_item item item = true) by (subst item; apply Nat.eqb_refl).
  induction o as [| w bn' | w bn' cs IH] using pyobj_tree_ind; intros Hb.
  - reflexivity.
  - reflexivity.
  - cbn in Hb. apply andb_true_iff in Hb. destruct Hb as [_ Hcs].
    assert (Hmap : List.map (map_container t (removing item))
                     (List.map (map_container t (insert_at pos item)) cs) = cs).
    { clear Hi. induction IH as [| c cs Hc _ IHcs]; [reflexivity |].
      cbn in Hcs. apply andb_true_iff in Hcs. destruct Hcs as [Hc' Hcs].
      cbn. rewrite (Hc Hc'), (IHcs Hcs). reflexivity. }
    rewrite !map_container_container.
    destruct (Nat.eqb w t); [| rewrite Hmap; reflexivity].
    rewrite map_insert_at, Hmap. unfold removing at 1.
    rewrite filter_insert_at
      by (rewrite (is_item_map_container _ _ _ Hi); reflexivity).
    rewrite filter_all_kept; [reflexivity |].
    apply List.forallb_forall. intros c Hc.
    rewrite List.forallb_forall in Hcs.
    exact (ids_below_not_item n item c i bn ks Hitem Hle (Hcs c Hc)).
Qed.

Lemma find_toolbox_widgets n name : find_widget_by_name (toolbox_widgets n) name = None.
Proof. reflexivity. Qed.

(** A successful activation, spelled out. *)
Lemma do_activate_success s t bn cs :
  gst_has_pitch (host s) = true ->
  raises (host s) ShellWindow = None ->
  raises (host s) GtkConstruct = None ->
  raises (host s) ToolbarInsert = None ->
  find_widget_by_name (window (host s)) "main-toolbar" = Some (GtkWidget t bn (Some cs)) ->
  let s1 := exec activate_prologue s in
  let item := toolbox_widgets (next_widget (host s)) in
  do_activate s =
  (Returns tt,
   {| self := with_toolbox (Some item) (fresh_adjustments (self s1));
      host := with_window (map_container t (insert_at 2 item) (window (host s)))
                (with_next_widget (21 + next_widget (host s)) (host s1));
      trace := trace s1 ++ [EvToolbarInsert (GtkWidget t bn (Some cs)) item 2] |}).
Proof.
  intros Hg Hwin Hcons Hins Htb. cbv zeta.
  rewrite (do_activate_unfold s Hg).
  destruct (activate_prologue_frame s) as (Hw & Hr & Hn & _ & _).
  cbv zeta in *. generalize dependent (exec activate_prologue s). intros s1 Hw Hr Hn.
  pose proof (create_toolbox_result s1) as Hbuild.
  rewrite Hr, Hn in Hbuild. specialize (Hbuild Hcons).
  unfold try_except, activate_ui, get_toolbar. run.
  rewrite Hr, Hwin. run. rewrite Hw, Htb. rewrite Hbuild. run.
  unfold toolbar_insert. run. rewrite Hr, Hins. run. rewrite Hw. reflexivity.
Qed.

Lemma deactivate_ui_removes s item t bn cs :
  raises (host s) ShellWindow = None ->
  raises (host s) WidgetGetParent = None ->
  raises (host s) ToolbarRemove = None ->
  find_widget_by_name (window (host s)) "main-toolbar" = Some (GtkWidget t bn (Some cs)) ->
  is_Some (parent_in item (window (host s))) ->
  deactivate_ui item s =
  (Returns tt,
   {| self := self s;
      host := with_window (map_container t (removing item) (window (host s))) (host s);
      trace := trace s ++ [EvToolbarRemove (GtkWidget t bn (Some cs)) item] |}).
Proof.
  intros Hwin Hpar Hrem Htb [p Hp].
  unfold deactivate_ui, get_toolbar, widget_get_parent. run.
  rewrite Hwin. run. rewrite Htb. run. rewrite Hpar. run. rewrite Hp.
  unfold toolbar_remove. run. rewrite Hrem. reflexivity.
Qed.

Lemma deactivate_ui_toolbar_gone s item :
  raises (host s) ShellWindow = None ->
  find_widget_by_name (window (host s)) "main-toolbar" = None ->
  deactivate_ui item s = (Raises no_warning_attribute, s).
Proof.
  intros Hwin Htb. unfold deactivate_ui, get_toolbar. run.
  rewrite Hwin. run. rewrite Htb. destruct s; reflexivity.
Qed.

Lemma deactivate_ui_orphan s item tb :
  raises (host s) ShellWindow = None ->
  raises (host s) WidgetGetParent = None ->
  find_widget_by_name (window (host s)) "main-toolbar" = Some tb ->
  parent_in item (window (host s)) = None ->
  deactivate_ui item s = (Returns tt, s).
Proof.
  intros Hwin Hpar Htb Hp. unfold deactivate_ui, get_toolbar, widget_get_parent. run.
  rewrite Hwin. run. rewrite Htb. run. rewrite Hpar. run. rewrite Hp.
  destruct s; reflexivity.
Qed.

Lemma remove_filter_frame s :
  let s' := exec remove_filter s in
  window (host s') = window (host s) /\
  raises (host s') = raises (host s) /\
  filters (host s') =
    match pitch_element (self s) with
    | Some e => List.remove Nat.eq_dec e (filters (host s))
    | None => filters (host s)
    end.
Proof.
  cbv zeta. unfold exec. destruct (pitch_element (self s)) as [e |] eqn:Hh.
  - rewrite (remove_filter_present s e Hh). repeat split.
  - rewrite (remove_filter_absent s Hh). repeat split.
Qed.

Lemma find_in_preorder o name w :
  find_widget_by_name o name = Some w -> In w (preorder o).
Proof.
  rewrite find_widget_by_name_preorder. unfold first_in_preorder. intros H.
  destruct (find_first_split _ _ _ H) as (_ & before & after & -> & _).
  apply in_or_app. right. now left.
Qed.

Lemma nth_error_insert_at pos (x : pyobj) l :
  nth_error (insert_at pos x l) (Nat.min pos (length l)) = Some x.
Proof.
  unfold insert_at.
  rewrite List.nth_error_app2 by (rewrite List.length_firstn; lia).
  rewrite List.length_firstn, Nat.sub_diag. reflexivity.
Qed.

(** X7.  When the host has the element, the window can be reached, the
    toolbar is found and is a container, and the toolkit calls succeed,
    [do_activate] returns with the tool item [create_toolbox] built (a
    widget that no name search finds) as child number 2 of the toolbar, or
    as its last child when the toolbar had fewer than two: the item has a
    parent in the window, and a new search for the toolbar finds the same
    toolbar with the item among its children. *)
Theorem do_activate_attaches_toolbox (s : State) (t : nat) (bn : option string)
    (cs : list pyobj) :
  gst_has_pitch (host s) = true ->
  raises (host s) ShellWindow = None ->
  raises (host s) GtkConstruct = None ->
  raises (host s) ToolbarInsert = None ->
  find_widget_by_name (window (host s)) "main-toolbar" = Some (GtkWidget t bn (Some cs)) ->
  let s' := exec do_activate s in
  outcome do_activate s = Returns tt /\
  exists item,
    let g := map_container t (insert_at 2 item) in
    toolbox (self s') = Some item /\
    is_widget item = true /\
    (forall name, find_widget_by_name item name = None) /\
    window (host s') = g (window (host s)) /\
    find_widget_by_name (window (host s')) "main-toolbar" =
      Some (GtkWidget t bn (Some (insert_at 2 item (List.map g cs)))) /\
    nth_error (insert_at 2 item (List.map g cs)) (Nat.min 2 (length cs)) = Some item /\
    is_Some (parent_in item (window (host s'))).
Proof.
  intros Hg Hwin Hcons Hins Htb. cbv zeta. unfold outcome, exec.
  rewrite (do_activate_success s t bn cs Hg Hwin Hcons Hins Htb).
  cbn [fst snd self host toolbox window with_toolbox with_window].
  split; [reflexivity |].
  exists (toolbox_widgets (next_widget (host s))).
  split; [reflexivity |]. split; [reflexivity |].
  split; [intros name; apply find_toolbox_widgets |].
  split; [reflexivity |]. split; [| split].
  - rewrite (find_after_insert _ _ _ _ _ (find_toolbox_widgets _ _)), Htb.
    cbn [option_map]. rewrite map_container_container, Nat.eqb_refl. reflexivity.
  - rewrite <- (List.length_map (map_container t (insert_at 2 (toolbox_widgets
                                   (next_widget (host s))))) cs).
    apply nth_error_insert_at.
  - apply (parent_after_insert t 2 _ bn cs); [apply Nat.eqb_refl |].
    exact (find_in_preorder _ _ _ Htb).
Qed.

(** X8.  Activation followed by deactivation gives the host back what it
    had: when the host has the element, no guarded call raises, the toolbar
    is found and is a container, and the widgets and the element made are
    new ones, [do_deactivate] after [do_activate] returns with the window
    tree and the player's filter chain exactly as they were before the
    activation, and with both handles [None]. *)
Theorem activate_then_deactivate_restores_host (s : State) (t : nat)
    (bn : option string) (cs : list pyobj) :
  gst_has_pitch (host s) = true ->
  (forall c, raises (host s) c = None) ->
  find_widget_by_name (window (host s)) "main-toolbar" = Some (GtkWidget t bn (Some cs)) ->
  ids_below (next_widget (host s)) (window (host s)) = true ->
  ~ In (next_element (host s)) (filters (host s)) ->
  let s' := exec (do_activate ;; do_deactivate)%method s in
  outcome (do_activate ;; do_deactivate)%method s = Returns tt /\
  window (host s') = window (host s) /\
  filters (host s') = filters (host s) /\
  toolbox (self s') = None /\
  pitch_element (self s') = None.
Proof.
  intros Hg Hraise Htb Hids Hfresh. cbv zeta.
  pose proof (do_activate_success s t bn cs Hg (Hraise _) (Hraise _) (Hraise _) Htb) as Hact.
  pose proof (do_activate_pipeline s) as Hpipe. cbv zeta in Hact, Hpipe.
  rewrite Hg in Hpipe.
  assert (Hret : outcome do_activate s = Returns tt)
    by (unfold outcome; rewrite Hact; reflexivity).
  assert (Hrun : (do_activate ;; do_deactivate)%method s =
                 do_deactivate (exec do_activate s))
    by exact (bind_returns _ _ _ _ Hret).
  unfold outcome.
  replace (exec (do_activate ;; do_deactivate)%method s)
    with (snd (do_deactivate (exec do_activate s)))
    by (unfold exec at 2; rewrite Hrun; reflexivity).
  rewrite Hrun. clear Hrun Hret.
  set (item := toolbox_widgets (next_widget (host s))) in *.
  assert (Htbx : toolbox (self (exec do_activate s)) = Some item)
    by (unfold exec; rewrite Hact; reflexivity).
  assert (Hwin : window (host (exec do_activate s)) =
                 map_container t (insert_at 2 item) (window (host s)))
    by (unfold exec; rewrite Hact; reflexivity).
  assert (Hr : raises (host (exec do_activate s)) = raises (host s)).
  { unfold exec at 1. rewrite Hact. cbn. apply (activate_prologue_frame s). }
  assert (Hfil : match pitch_element (self (exec do_activate s)) with
                 | Some e => List.remove Nat.eq_dec e (filters (host (exec do_activate s)))
                 | None => filters (host (exec do_activate s))
                 end = filters (host s)).
  { destruct Hpipe as (-> & -> & _). apply remove_app_fresh. exact Hfresh. }
  clear Hact Hpipe. generalize dependent (exec do_activate s). intros sA Htbx Hwin Hr Hfil.
  pose proof (do_deactivate_unfold sA) as Hun. cbv zeta in Hun. rewrite Hun, Htbx. clear Hun.
  destruct (remove_filter_frame sA) as (Hw1 & Hr1 & Hf1). cbv zeta in Hw1, Hr1, Hf1.
  rewrite Hfil in Hf1. rewrite Hwin in Hw1. rewrite Hr in Hr1.
  generalize dependent (exec remove_filter sA). intros sB Hw1 Hr1 Hf1.
  assert (Hfind : find_widget_by_name (window (host sB)) "main-toolbar" =
                  Some (GtkWidget t bn
                          (Some (insert_at 2 item
                                   (List.map (map_container t (insert_at 2 item)) cs))))).
  { rewrite Hw1, (find_after_insert t 2 item _ _ (find_toolbox_widgets _ _)), Htb.
    cbn [option_map]. rewrite map_container_container, Nat.eqb_refl. reflexivity. }
  assert (Hpar : is_Some (parent_in item (window (host sB)))).
  { rewrite Hw1. apply (parent_after_insert t 2 _ bn cs); [apply Nat.eqb_refl |].
    exact (find_in_preorder _ _ _ Htb). }
  unfold outcome, exec, deactivate_teardown, try_except.
  rewrite (deactivate_ui_removes sB item t bn _
             ltac:(rewrite Hr1; apply Hraise) ltac:(rewrite Hr1; apply Hraise)
             ltac:(rewrite Hr1; apply Hraise) Hfind Hpar).
  cbn. rewrite Hw1, Hf1.
  rewrite (remove_after_insert t 2 item _ None _ (next_widget (host s)) _ eq_refl)
    by (try exact Hids; lia).
  repeat split.
Qed.

(** X9.  What [do_deactivate] does about the toolbox depends on what it
    finds.  Without toolbox handle it makes no UI call at all, and with a
    toolbar but a toolbox that has no parent it removes nothing: in both
    cases it returns with host and trace as [remove_filter] left them.  With
    a handle but no toolbar in the window it reaches [GLib.warning] and
    raises: nothing is removed or logged, and the state, the toolbox handle
    included, stays as [remove_filter] left it. *)
Theorem do_deactivate_teardown_cases (s : State) :
  let s1 := exec remove_filter s in
  let s' := exec do_deactivate s in
  (toolbox (self s) = None ->
     outcome do_deactivate s = Returns tt /\ host s' = host s1 /\ trace s' = trace s1) /\
  (forall item,
     toolbox (self s) = Some item ->
     raises (host s) ShellWindow = None ->
     find_widget_by_name (window (host s)) "main-toolbar" = None ->
     outcome do_deactivate s = Raises no_warning_attribute /\
     s' = s1 /\ toolbox (self s') = Some item) /\
  (forall item tb,
     toolbox (self s) = Some item ->
     raises (host s) ShellWindow = None ->
     raises (host s) WidgetGetParent = None ->
     find_widget_by_name (window (host s)) "main-toolbar" = Some tb ->
     parent_in item (window (host s)) = None ->
     outcome do_deactivate s = Returns tt /\ host s' = host s1 /\ trace s' = trace s1).
Proof.
  cbv zeta.
  change (outcome do_deactivate s) with (fst (do_deactivate s)).
  change (exec do_deactivate s) with (snd (do_deactivate s)).
  pose proof (do_deactivate_unfold s) as Hun. cbv zeta in Hun.
  rewrite Hun. clear Hun.
  destruct (remove_filter_frame s) as (Hw & Hr & _). cbv zeta in Hw, Hr.
  destruct (remove_filter_post s) as (_ & Ht).
  generalize dependent (exec remove_filter s). intros s1 Hw Hr Ht.
  split; [| split].
  - intros ->. repeat split.
  - intros item Htb Hwin Hfind. rewrite Htb in *.
    unfold deactivate_teardown, outcome, exec, try_except.
    rewrite (deactivate_ui_toolbar_gone s1 item)
      by (rewrite ?Hr, ?Hw; assumption).
    run. repeat split. exact Ht.
  - intros item tb Htb Hwin Hpar Hfind Hp. rewrite Htb.
    unfold deactivate_teardown, outcome, exec, try_except.
    rewrite (deactivate_ui_orphan s1 item tb)
      by (rewrite ?Hr, ?Hw; assumption).
    repeat split.
Qed.

(** ** The further properties at the example states *)

Lemma state_with_toolbar_activates :
  outcome do_activate state_with_toolbar = Returns tt.
Proof. reflexivity. Defined.

Lemma activated_handle :
  pitch_element (self (exec do_activate state_with_toolbar)) = Some 0%nat.
Proof. vm_compute. reflexivity. Defined.

(** After activation in the example host, element 0 is in the chain with
    the properties derived from the new adjustments. *)
Lemma running_filter_mirrors_adjustments_activated :
  In 0%nat (filters (host (exec do_activate state_with_toolbar))) /\
  elements (host (exec do_activate state_with_toolbar)) !! 0%nat =
    Some (derived (self (exec do_activate state_with_toolbar))).
Proof.
  exact (running_filter_mirrors_adjustments (exec do_activate state_with_toolbar) 0
           (running_activated _ state_with_toolbar_activates) activated_handle).
Defined.

Lemma running_filter_in_range_activated :
  (-50 <= value (tempo_adj (self (exec do_activate state_with_toolbar))) <= 200)%R.
Proof.
  exact (proj1 (running_filter_in_range (exec do_activate state_with_toolbar)
                  (running_activated _ state_with_toolbar_activates))).
Defined.

(** Sliding the tempo to +500 after activation stores 200. *)
Lemma slide_reaches_filter_activated :
  value (tempo_adj (self (exec (adj_set_value TempoAdj 500)
                             (exec do_activate state_with_toolbar)))) =
  Rmax (-50) (Rmin 500 200).
Proof.
  exact (proj1 (slide_reaches_filter (exec do_activate state_with_toolbar) TempoAdj 500
                  (running_activated _ state_with_toolbar_activates))).
Defined.

Lemma property_changed_touches_only_its_element_busy :
  self (exec (property_changed TempoAdj) busy_state) = self busy_state /\
  filters (host (exec (property_changed TempoAdj) busy_state)) = [7%nat].
Proof.
  destruct (property_changed_touches_only_its_element busy_state 7 TempoAdj PitchAdj
              eq_refl) as (Hs & Hf & _).
  split; [exact Hs | exact Hf].
Defined.

Lemma add_filter_then_remove_filter_fresh :
  filters (host (exec (add_filter ;; remove_filter)%method state_with_toolbar)) = [] /\
  pitch_element (self (exec (add_filter ;; remove_filter)%method state_with_toolbar)) = None /\
  outcome (add_filter ;; remove_filter)%method state_with_toolbar = Returns tt.
Proof.
  destruct (add_filter_then_remove_filter state_with_toolbar eq_refl
              ltac:(intros [])) as (Hh & Hf & _ & Hret).
  split; [exact Hf |]. split; [exact Hh |]. exact (proj1 (Hret eq_refl)).
Defined.

Lemma reset_twice_busy :
  reset (exec reset busy_state) = (Returns tt, exec reset busy_state).
Proof. exact (reset_twice busy_state busy_state_wired). Defined.

(** Deactivating the busy plugin twice. *)
Lemma do_deactivate_twice_busy :
  do_deactivate (exec do_deactivate busy_state) = (Returns tt, exec do_deactivate busy_state).
Proof. exact (do_deactivate_twice busy_state eq_refl). Defined.

Lemma do_activate_makes_new_element_busy :
  pitch_element (self (exec do_activate busy_state)) = Some 8%nat /\
  filters (host (exec do_activate busy_state)) = [7%nat; 8%nat].
Proof.
  destruct (proj1 (do_activate_makes_new_element busy_state) eq_refl) as (Hh & Hf & _).
  split; [exact Hh | exact Hf].
Defined.

Lemma do_activate_attaches_toolbox_example :
  outcome do_activate state_with_toolbar = Returns tt /\
  exists item,
    toolbox (self (exec do_activate state_with_toolbar)) = Some item /\
    is_Some (parent_in item (window (host (exec do_activate state_with_toolbar)))).
Proof.
  destruct (do_activate_attaches_toolbox state_with_toolbar 2
              (Some "main-toolbar"%string)
              [GtkWidget 3 (Some "play-button"%string) None;
               GtkWidget 4 (Some "song-info"%string) None]
              eq_refl eq_refl eq_refl eq_refl eq_refl)
    as (Hret & item & Ht & _ & _ & _ & _ & _ & Hp).
  split; [exact Hret |]. exists item. split; [exact Ht | exact Hp].
Defined.

Lemma activate_then_deactivate_example :
  window (host (exec (do_activate ;; do_deactivate)%method state_with_toolbar)) =
    rhythmbox_window /\
  filters (host (exec (do_activate ;; do_deactivate)%method state_with_toolbar)) = [].
Proof.
  destruct (activate_then_deactivate_restores_host state_with_toolbar 2
              (Some "main-toolbar"%string)
              [GtkWidget 3 (Some "play-button"%string) None;
               GtkWidget 4 (Some "song-info"%string) None]
              eq_refl (fun _ => eq_refl) eq_refl eq_refl ltac:(intros []))
    as (_ & Hw & Hf & _).
  split; [exact Hw | exact Hf].
Defined.

(** Deactivation in a window whose toolbar is gone: the filter is removed,
    and the method raises with the toolbox handle still set. *)
Lemma do_deactivate_teardown_cases_example :
  outcome do_deactivate state_with_toolbar_gone = Raises no_warning_attribute /\
  toolbox (self (exec do_deactivate state_with_toolbar_gone)) = Some toolbox_item.
Proof.
  destruct (do_deactivate_teardown_cases state_with_toolbar_gone) as (_ & Hgone & _).
  destruct (Hgone toolbox_item eq_refl eq_refl eq_refl) as (Hret & _ & Ht).
  split; [exact Hret | exact Ht].
Defined.
